(** * Recoverable canonical ECDSA signatures: the [Signature] class

    A shallow embedding of the [Signature] class of the ECC library
    (compact 65-byte wire format, canonicality test, signing retry loops,
    recovery-header packing, the two verifiers) together with the
    properties its specification states about it.

    Conventions.
    - A Node [Buffer] is a [list byte]; a byte read as a JS number is a [Z].
    - A [bigi] [BigInteger] is a [Z].
    - Exceptions are values of [exn]; a method that can throw returns a
      [result].
    - The curve engine, the hash and the key classes are collaborators
      whose code lives elsewhere: they are fields of [Collaborators]. *)

From Stdlib Require Import ZArith List Bool Lia String.
From Stdlib Require Import Strings.Byte DecimalString.
From Stdlib Require Import Ascii.
Import ListNotations.

Local Open Scope Z_scope.

(** ** Bytes *)

Definition byte_val (b : byte) : Z := Z.of_N (Byte.to_N b).

(** Storing a JS number into a [Uint8Array] cell keeps its low 8 bits. *)
Definition byte_of_Z (z : Z) : byte :=
  match Byte.of_N (Z.to_N (z mod 256)) with
  | Some b => b
  | None => x00
  end.

(** ** JS exceptions *)

Inductive exn : Type :=
| AssertionError (message : string)
| Error (message : string)
| RangeError (message : string).

Inductive result (A : Type) : Type :=
| Ok (a : A)
| Throw (e : exn).
Arguments Ok {A} a.
Arguments Throw {A} e.

Definition rbind {A B} (m : result A) (k : A -> result B) : result B :=
  match m with
  | Ok a => k a
  | Throw e => Throw e
  end.

Notation "x <- m ;; k" := (rbind m (fun x => k))
  (at level 61, m at next level, right associativity).
Notation "m ;; k" := (rbind m (fun _ => k))
  (at level 61, right associativity).

(** [assert.equal(actual, expected, message)] on numbers. *)
Definition assert_equal (actual expected : Z) (message : string) : result unit :=
  if actual =? expected then Ok tt else Throw (AssertionError message).

(** ** Node's Buffer *)

Module Buffer.

Definition t := list byte.

(** [new Buffer(size)]: the cells are all written before they are read
    in this class; they start as zero. *)
Definition alloc (size : nat) : t := repeat x00 size.

(** [buf.length] as a JS number. *)
Definition length (buf : t) : Z := Z.of_nat (List.length buf).

(** [buf[k]]: [undefined] ([None]) outside the buffer, also for a [k]
    that is not an index. *)
Definition get (buf : t) (k : Z) : option Z :=
  if k <? 0 then None
  else option_map byte_val (nth_error buf (Z.to_nat k)).

(** [buf.readUInt8(offset)]. *)
Definition readUInt8 (buf : t) (offset : nat) : result Z :=
  match nth_error buf offset with
  | Some b => Ok (byte_val b)
  | None => Throw (RangeError "Index out of range")
  end.

(** [buf.writeUInt8(value, offset)]: checks the value against [0, 255]
    and the offset against the buffer, then stores. *)
Definition writeUInt8 (buf : t) (value : Z) (offset : nat) : result t :=
  if (value <? 0) || (255 <? value) then
    Throw (RangeError "value is out of bounds")
  else if (List.length buf <=? offset)%nat then
    Throw (RangeError "Index out of range")
  else Ok (firstn offset buf ++ byte_of_Z value :: skipn (S offset) buf).

(** [buf.slice(start, end)] and [buf.slice(start)], indices clamped to
    the buffer. *)
Definition slice (buf : t) (start stop : nat) : t :=
  firstn (stop - start) (skipn start buf).

Definition slice_from (buf : t) (start : nat) : t := skipn start buf.

(** [source.copy(target, targetStart)]: overwrites the target from
    [targetStart] on, copying no more than fits. The class only calls
    it with a start inside the target. *)
Definition copy (source target : t) (targetStart : nat) : t :=
  let room := (List.length target - targetStart)%nat in
  let written := firstn room source in
  firstn targetStart target ++ written
    ++ skipn (targetStart + List.length written) target.

End Buffer.

(** ** bigi's BigInteger *)

Module BigInteger.

Definition t := Z.

Fixpoint be_acc (acc : Z) (bs : list byte) : Z :=
  match bs with
  | [] => acc
  | b :: rest => be_acc (acc * 256 + byte_val b) rest
  end.

(** [BigInteger.fromBuffer(buffer)]: the bytes as an unsigned
    big-endian number. *)
Definition fromBuffer (buffer : Buffer.t) : t := be_acc 0 buffer.

(** The [n] low-order bytes of [x], most significant first. *)
Fixpoint be_bytes (n : nat) (x : Z) : list byte :=
  match n with
  | O => []
  | S m => byte_of_Z (x / 256 ^ Z.of_nat m) :: be_bytes m x
  end.

(** [x.bitLength()]: bits of the minimal two's-complement form, the
    sign bit not counted. *)
Definition bitLength (x : t) : Z :=
  let y := if x <? 0 then - x - 1 else x in
  if y =? 0 then 0 else Z.log2 y + 1.

(** [x.toByteArray()]: minimal two's-complement bytes, big-endian. *)
Definition toByteArray (x : t) : list byte :=
  be_bytes (Z.to_nat (bitLength x / 8 + 1)) x.

(** [x.toByteArrayUnsigned()]: drops one leading zero byte. *)
Definition toByteArrayUnsigned (x : t) : list byte :=
  match toByteArray x with
  | b :: rest => if byte_val b =? 0 then rest else b :: rest
  | [] => []
  end.

(** [x.toBuffer(size)]: left-pads with zeros up to [size] bytes; a
    longer number is left as it is. *)
Definition toBuffer (x : t) (size : nat) : Buffer.t :=
  let byteArray := toByteArrayUnsigned x in
  repeat x00 (size - List.length byteArray) ++ byteArray.

End BigInteger.

(** ** The Signature class: wire codec and canonicality *)

Record Signature : Type := mkSignature {
  r : BigInteger.t;
  s : BigInteger.t;
  i : Z
}.

(** [Signature.fromBuffer(buf)]. *)
Definition fromBuffer (buf : Buffer.t) : result Signature :=
  assert_equal (Buffer.length buf) 65 "Invalid signature length" ;;
  i <- Buffer.readUInt8 buf 0 ;;
  assert_equal (i - 27) (Z.land (i - 27) 7) "Invalid signature parameter" ;;
  let r := BigInteger.fromBuffer (Buffer.slice buf 1 33) in
  let s := BigInteger.fromBuffer (Buffer.slice_from buf 33) in
  Ok (mkSignature r s i).

(** [signature.toBuffer()]. *)
Definition toBuffer (sig : Signature) : result Buffer.t :=
  let buf := Buffer.alloc 65 in
  buf <- Buffer.writeUInt8 buf (i sig) 0 ;;
  let buf := Buffer.copy (BigInteger.toBuffer (r sig) 32) buf 1 in
  let buf := Buffer.copy (BigInteger.toBuffer (s sig) 32) buf 33 in
  Ok buf.

(** JS coercions used by [isCanonical]: [x & 0x80] and [x == 0] on a
    cell that may be [undefined]. *)
Definition js_land (x : option Z) (mask : Z) : Z :=
  match x with
  | Some v => Z.land v mask
  | None => 0
  end.

Definition js_eq (x : option Z) (v : Z) : bool :=
  match x with
  | Some w => w =? v
  | None => false
  end.

(** [!n] on a JS number. *)
Definition js_not (n : Z) : bool := n =? 0.

(** [signature.isCanonical()]. *)
Definition isCanonical (sig : Signature) : bool :=
  let r := BigInteger.toBuffer (r sig) 32 in
  let s := BigInteger.toBuffer (s sig) 32 in
  js_not (js_land (Buffer.get r 0) 128)
  && negb (js_eq (Buffer.get r 0) 0 && js_not (js_land (Buffer.get r 1) 128))
  && js_not (js_land (Buffer.get s 0) 128)
  && negb (js_eq (Buffer.get s 0) 0 && js_not (js_land (Buffer.get s 1) 128)).

(** The same test read off the specification: [r] and [s] written as
    32-byte big-endian buffers, byte [k] of [x] being a base-256 digit. *)
Definition be32_byte (x : Z) (k : Z) : Z := (x / 256 ^ (31 - k)) mod 256.

Definition top_bit (v : Z) : bool := Z.testbit v 7.

Definition spec_canonical_int (x : Z) : Prop :=
  top_bit (be32_byte x 0) = false
  /\ ~ (be32_byte x 0 = 0 /\ top_bit (be32_byte x 1) = false).

Definition spec_canonical (sig : Signature) : Prop :=
  spec_canonical_int (r sig) /\ spec_canonical_int (s sig).

(** ** Collaborators *)

(** What [sign] of the curve engine returns: an object with [r], [s]
    and a [toDER()] method. *)
Module ECSignature.
Record t : Type := mk { r : BigInteger.t; s : BigInteger.t }.
End ECSignature.

(** The imports of the class: the curve engine ([sign], [verify],
    [calcPubKeyRecoveryParam], [recoverPubKey]), [sha256], the native
    [secp256k1] verifier, [ECSignature.toDER] and the key classes.
    They are taken as the specification describes them: total
    functions, [calcPubKeyRecoveryParam] returning a number.
    [World] is whatever [sign] may depend on besides its arguments (the
    class calls it again with the same arguments and expects another
    candidate), threaded through every call. *)
Record Collaborators : Type := {
  World : Type;
  Curve : Type;
  Point : Type;
  PrivateKey : Type;
  PublicKey : Type;
  secp256k1 : Curve;
  sha256 : Buffer.t -> Buffer.t;
  sign : Curve -> Buffer.t -> BigInteger.t -> Z -> World
         -> ECSignature.t * World;
  toDER : ECSignature.t -> Buffer.t;
  calcPubKeyRecoveryParam :
    Curve -> BigInteger.t -> ECSignature.t -> Point -> Z;
  recoverPubKey : Curve -> BigInteger.t -> Signature -> Z -> Point;
  verify :
    Curve -> Buffer.t -> BigInteger.t * BigInteger.t -> Point -> bool;
  secp256k1Lib_verify : Buffer.t -> Buffer.t -> Buffer.t -> bool;
  d : PrivateKey -> BigInteger.t;
  toPublicKey : PrivateKey -> PublicKey;
  Q : PublicKey -> Point;
  PublicKey_fromPoint : Point -> PublicKey;
  PublicKey_toBuffer : PublicKey -> Buffer.t
}.

(** Outcome of a method that calls [sign] in a loop: it returns a value
    (and leaves the world in some state), throws, or is still looping
    when the fuel is spent. *)
Inductive outcome (W A : Type) : Type :=
| Returns (a : A) (w : W)
| Raises (e : exn)
| OutOfFuel.
Arguments Returns {W A} a w.
Arguments Raises {W A} e.
Arguments OutOfFuel {W A}.

Definition obind {W A B} (m : outcome W A) (k : A -> W -> outcome W B)
  : outcome W B :=
  match m with
  | Returns a w => k a w
  | Raises e => Raises e
  | OutOfFuel => OutOfFuel
  end.

(** What a caller can hand to [signBufferSha256]: a Buffer, or something
    else that has a [length]. *)
Inductive js_bytes : Type :=
| JsBuffer (b : Buffer.t)
| JsString (str : string).

Definition js_length (v : js_bytes) : Z :=
  match v with
  | JsBuffer b => Buffer.length b
  | JsString str => Z.of_nat (String.length str)
  end.

Definition Buffer_isBuffer (v : js_bytes) : bool :=
  match v with
  | JsBuffer _ => true
  | JsString _ => false
  end.

(** [x === v] for a cell that may be [undefined]. *)
Definition js_strict_eq (x : option Z) (v : Z) : bool := js_eq x v.

(** ** Signing *)

Section Protocol.

Variable E : Collaborators.

(** The test of the nonce loop: [lenR = der[3]], [lenS = der[5 + lenR]]
    and [lenR === 32 && lenS === 32]. *)
Definition lengthCanonical (ecsignature : ECSignature.t) : bool :=
  let der := toDER E ecsignature in
  let lenR := Buffer.get der 3 in
  let lenS := match lenR with
              | Some l => Buffer.get der (5 + l)
              | None => None
              end in
  js_strict_eq lenR 32 && js_strict_eq lenS 32.

(** The [while (true)] of [signBufferSha256], entered with the current
    [nonce]. The warning printed every tenth attempt is not modelled. *)
Fixpoint nonce_loop (fuel : nat) (buf_sha256 : Buffer.t) (e : BigInteger.t)
    (private_key : PrivateKey E) (nonce : Z) (w : World E)
  : outcome (World E) (ECSignature.t * Z) :=
  match fuel with
  | O => OutOfFuel
  | S fuel' =>
      let (ecsignature, w') :=
        sign E (secp256k1 E) buf_sha256 (d E private_key) nonce w in
      let nonce := nonce + 1 in
      if lengthCanonical ecsignature then
        let i := calcPubKeyRecoveryParam E (secp256k1 E) e ecsignature
                   (Q E (toPublicKey E private_key)) in
        let i := i + 4 in
        let i := i + 27 in
        Returns (ecsignature, i) w'
      else nonce_loop fuel' buf_sha256 e private_key nonce w'
  end.

(** [Signature.signBufferSha256(buf_sha256, private_key)]. *)
Definition signBufferSha256 (fuel : nat) (buf_sha256 : js_bytes)
    (private_key : PrivateKey E) (w : World E)
  : outcome (World E) Signature :=
  if negb (js_length buf_sha256 =? 32) || negb (Buffer_isBuffer buf_sha256)
  then Raises (Error "buf_sha256: 32 byte buffer requred")
  else
    match buf_sha256 with
    | JsBuffer buf =>
        let nonce := 0 in
        let e := BigInteger.fromBuffer buf in
        obind (nonce_loop fuel buf e private_key nonce w)
          (fun '(ecsignature, i) w' =>
             Returns (mkSignature (ECSignature.r ecsignature)
                        (ECSignature.s ecsignature) i) w')
    | JsString _ => Raises (Error "buf_sha256: 32 byte buffer requred")
    end.

(** The [while (!signature.isCanonical())] of [signBuffer]; every turn
    signs again, with [inner] fuel for the nonce loop. *)
Fixpoint canonical_loop (inner fuel : nat) (_hash : Buffer.t)
    (private_key : PrivateKey E) (signature : Signature) (w : World E)
  : outcome (World E) Signature :=
  if isCanonical signature then Returns signature w
  else
    match fuel with
    | O => OutOfFuel
    | S fuel' =>
        obind (signBufferSha256 inner (JsBuffer _hash) private_key w)
          (fun signature w' =>
             canonical_loop inner fuel' _hash private_key signature w')
    end.

(** [Signature.signBuffer(buf, private_key)]. *)
Definition signBuffer (fuel : nat) (buf : Buffer.t)
    (private_key : PrivateKey E) (w : World E)
  : outcome (World E) Signature :=
  let _hash := sha256 E buf in
  obind (signBufferSha256 fuel (JsBuffer _hash) private_key w)
    (fun signature w' =>
       canonical_loop fuel fuel _hash private_key signature w').

(** ** Recovery *)

(** The index [recoverPublicKey] hands to the engine. *)
Definition recoveryIndex (sig : Signature) : Z :=
  let i := i sig in
  let i := i - 27 in
  Z.land i 3.

(** [signature.recoverPublicKey(sha256_buffer)]. *)
Definition recoverPublicKey (sig : Signature) (sha256_buffer : Buffer.t)
  : PublicKey E :=
  let e := BigInteger.fromBuffer sha256_buffer in
  let i := recoveryIndex sig in
  let Q := recoverPubKey E (secp256k1 E) e sig i in
  PublicKey_fromPoint E Q.

Definition recoverPublicKeyFromBuffer (sig : Signature) (buffer : Buffer.t)
  : PublicKey E :=
  recoverPublicKey sig (sha256 E buffer).

(** ** Verification *)

Definition sha256_length_message (len : Z) : string :=
  String.append "A SHA 256 should be 32 bytes long, instead got "
    (NilZero.string_of_int (Z.to_int len)).

(** [signature.verifyHash(hash, public_key)]: the curve engine's
    verifier on [(r, s)] and the key's point. *)
Definition verifyHash (sig : Signature) (hash : Buffer.t)
    (public_key : PublicKey E) : result bool :=
  assert_equal (Buffer.length hash) 32
    (sha256_length_message (Buffer.length hash)) ;;
  Ok (verify E (secp256k1 E) hash (r sig, s sig) (Q E public_key)).

(** [signature.verifyHashV2(hash, public_key)]: the native verifier on
    the wire form without its header byte and on the serialized key. *)
Definition verifyHashV2 (sig : Signature) (hash : Buffer.t)
    (public_key : PublicKey E) : result bool :=
  assert_equal (Buffer.length hash) 32
    (sha256_length_message (Buffer.length hash)) ;;
  buf <- toBuffer sig ;;
  Ok (secp256k1Lib_verify E hash (Buffer.slice_from buf 1)
        (PublicKey_toBuffer E public_key)).


(** The candidates of one run of the nonce loop started in world [w]:
    the world before the call with nonce [n], and what that call
    returns. *)
Fixpoint world_at (buf_sha256 : Buffer.t) (private_key : PrivateKey E)
    (w : World E) (n : nat) : World E :=
  match n with
  | O => w
  | S m =>
      snd (sign E (secp256k1 E) buf_sha256 (d E private_key) (Z.of_nat m)
             (world_at buf_sha256 private_key w m))
  end.

Definition candidate (buf_sha256 : Buffer.t) (private_key : PrivateKey E)
    (w : World E) (n : nat) : ECSignature.t :=
  fst (sign E (secp256k1 E) buf_sha256 (d E private_key) (Z.of_nat n)
         (world_at buf_sha256 private_key w n)).

(** The signature [signBufferSha256] builds from an accepted candidate. *)
Definition signature_of (buf_sha256 : Buffer.t) (private_key : PrivateKey E)
    (ecsignature : ECSignature.t) : Signature :=
  mkSignature (ECSignature.r ecsignature) (ECSignature.s ecsignature)
    (calcPubKeyRecoveryParam E (secp256k1 E)
       (BigInteger.fromBuffer buf_sha256) ecsignature
       (Q E (toPublicKey E private_key)) + 4 + 27).

End Protocol.

(** ** Two instances of the collaborators, for the examples *)

(** The DER form of [(r, s)]: [30 len 02 lenR R 02 lenS S], the integers
    in minimal two's complement. *)
Definition der_encode (sig : ECSignature.t) : Buffer.t :=
  let rBa := BigInteger.toByteArray (ECSignature.r sig) in
  let sBa := BigInteger.toByteArray (ECSignature.s sig) in
  let sequence :=
    x02 :: byte_of_Z (Z.of_nat (List.length rBa)) :: rBa
    ++ x02 :: byte_of_Z (Z.of_nat (List.length sBa)) :: sBa in
  x30 :: byte_of_Z (Z.of_nat (List.length sequence)) :: sequence.

(** A layout with both integers always on 32 bytes. *)
Definition fixed_encode (sig : ECSignature.t) : Buffer.t :=
  x30 :: x44 :: x02 :: x20 :: BigInteger.be_bytes 32 (ECSignature.r sig)
  ++ x02 :: x20 :: BigInteger.be_bytes 32 (ECSignature.s sig).

(** An engine whose candidate depends on the nonce only: [r] grows by
    one byte per nonce, so that DER gives it 30, 31, 32 bytes at nonces
    0, 1, 2. *)
Definition nonce_engine : Collaborators := {|
  World := nat;
  Curve := unit;
  Point := Z;
  PrivateKey := Z;
  PublicKey := Z;
  secp256k1 := tt;
  sha256 := fun buf => BigInteger.be_bytes 32 (BigInteger.fromBuffer buf + 1);
  sign := fun _ _ d nonce w =>
            (ECSignature.mk (256 ^ (29 + nonce)) (2 ^ 248 + d), S w);
  toDER := der_encode;
  calcPubKeyRecoveryParam := fun _ e _ _ => e mod 4;
  recoverPubKey := fun _ _ _ i => i;
  verify := fun _ _ _ _ => true;
  secp256k1Lib_verify := fun _ _ _ => true;
  d := fun k => k;
  toPublicKey := fun k => k;
  Q := fun k => k;
  PublicKey_fromPoint := fun p => p;
  PublicKey_toBuffer := fun k => BigInteger.be_bytes 33 k
|}.

(** An engine whose candidate depends on the call context: the first
    call of a process gives an [r] with its top bit set, later calls a
    canonical one; every candidate has 32-byte fields. *)
Definition context_engine : Collaborators := {|
  World := nat;
  Curve := unit;
  Point := Z;
  PrivateKey := Z;
  PublicKey := Z;
  secp256k1 := tt;
  sha256 := fun buf => BigInteger.be_bytes 32 (BigInteger.fromBuffer buf + 1);
  sign := fun _ _ d _ w =>
            (ECSignature.mk (if (w =? 0)%nat then 2 ^ 255 else 2 ^ 248)
               (2 ^ 248 + d), S w);
  toDER := fixed_encode;
  calcPubKeyRecoveryParam := fun _ e _ _ => e mod 4;
  recoverPubKey := fun _ _ _ i => i;
  verify := fun _ _ _ _ => true;
  secp256k1Lib_verify := fun _ _ _ => true;
  d := fun k => k;
  toPublicKey := fun k => k;
  Q := fun k => k;
  PublicKey_fromPoint := fun p => p;
  PublicKey_toBuffer := fun k => BigInteger.be_bytes 33 k
|}.

(** An engine without context: the same arguments give the same
    candidate, here one with 32-byte fields whose [r] has its top bit
    set. *)
Definition constant_engine : Collaborators := {|
  World := unit;
  Curve := unit;
  Point := Z;
  PrivateKey := Z;
  PublicKey := Z;
  secp256k1 := tt;
  sha256 := fun buf => BigInteger.be_bytes 32 (BigInteger.fromBuffer buf + 1);
  sign := fun _ _ d _ w => (ECSignature.mk (2 ^ 255) (2 ^ 248 + d), w);
  toDER := fixed_encode;
  calcPubKeyRecoveryParam := fun _ e _ _ => e mod 4;
  recoverPubKey := fun _ _ _ i => i;
  verify := fun _ _ _ _ => true;
  secp256k1Lib_verify := fun _ _ _ => true;
  d := fun k => k;
  toPublicKey := fun k => k;
  Q := fun k => k;
  PublicKey_fromPoint := fun p => p;
  PublicKey_toBuffer := fun k => BigInteger.be_bytes 33 k
|}.

(** [context_engine] with [s] kept below 2^256 for every key. *)
Definition bounded_engine : Collaborators := {|
  World := nat;
  Curve := unit;
  Point := Z;
  PrivateKey := Z;
  PublicKey := Z;
  secp256k1 := tt;
  sha256 := fun buf => BigInteger.be_bytes 32 (BigInteger.fromBuffer buf + 1);
  sign := fun _ _ d _ w =>
            (ECSignature.mk (if (w =? 0)%nat then 2 ^ 255 else 2 ^ 248)
               (2 ^ 248 + d mod 2 ^ 200), S w);
  toDER := fixed_encode;
  calcPubKeyRecoveryParam := fun _ e _ _ => e mod 4;
  recoverPubKey := fun _ _ _ i => i;
  verify := fun _ _ _ _ => true;
  secp256k1Lib_verify := fun _ _ _ => true;
  d := fun k => k;
  toPublicKey := fun k => k;
  Q := fun k => k;
  PublicKey_fromPoint := fun p => p;
  PublicKey_toBuffer := fun k => BigInteger.be_bytes 33 k
|}.

(** A 65-byte wire form: header 31, then [r] and [s]. *)
Definition sample_buffer : Buffer.t :=
  x1f :: BigInteger.be_bytes 32 (2 ^ 250 + 7)
  ++ BigInteger.be_bytes 32 (2 ^ 249 + 11).

Definition sample_signature : Signature :=
  mkSignature (2 ^ 250 + 7) (2 ^ 249 + 11) 31.

(** ** The hex layer *)

(** Node's ['hex'] encoding of buffers. *)
Module Hex.

(** The lowercase digit of a number below 16. *)
Definition digit (n : Z) : Ascii.ascii :=
  Ascii.ascii_of_N (Z.to_N (if n <? 10 then 48 + n else 87 + n)).

(** The value of a hex digit of either case. *)
Definition value (c : Ascii.ascii) : option Z :=
  let n := Z.of_N (Ascii.N_of_ascii c) in
  if (48 <=? n) && (n <=? 57) then Some (n - 48)
  else if (97 <=? n) && (n <=? 102) then Some (n - 87)
  else if (65 <=? n) && (n <=? 70) then Some (n - 55)
  else None.

(** [buf.toString('hex')]: two lowercase digits per byte. *)
Fixpoint encode (buf : Buffer.t) : string :=
  match buf with
  | [] => EmptyString
  | b :: rest =>
      String (digit (byte_val b / 16))
        (String (digit (byte_val b mod 16)) (encode rest))
  end.

(** The bytes of a string made of an even number of hex digits; [None]
    for any other string. *)
Fixpoint decode (hex : string) : option Buffer.t :=
  match hex with
  | EmptyString => Some []
  | String _ EmptyString => None
  | String c1 (String c2 rest) =>
      match value c1, value c2, decode rest with
      | Some hi, Some lo, Some bytes => Some (byte_of_Z (16 * hi + lo) :: bytes)
      | _, _, _ => None
      end
  end.



End Hex.

(** [new Buffer(hex, 'hex')]. A string made of an even number of hex
    digits gives its bytes. On any other string the answer of Node
    depends on its version (older ones throw, newer ones stop at the
    first pair that is not hex): [malformed] stands for that answer. *)
Definition Buffer_from_hex (malformed : string -> result Buffer.t)
    (hex : string) : result Buffer.t :=
  match Hex.decode hex with
  | Some buf => Ok buf
  | None => malformed hex
  end.

(** [Signature.fromHex(hex)]. *)
Definition fromHex (malformed : string -> result Buffer.t) (hex : string)
  : result Signature :=
  buf <- Buffer_from_hex malformed hex ;;
  fromBuffer buf.

(** [signature.toHex()]. *)
Definition toHex (sig : Signature) : result string :=
  buf <- toBuffer sig ;;
  Ok (Hex.encode buf).




(** A stand-in for the answer on malformed strings, where an example
    needs one: no bytes. *)
Definition no_bytes (hex : string) : result Buffer.t := Ok [].

(** ** The call-data serializer *)

Module TxSerializer.

(** [hay.indexOf(needle)], counted from [pos]: the first position where
    [needle] starts, or -1. *)
Fixpoint indexOf_from (needle hay : string) (pos : Z) : Z :=
  if String.prefix needle hay then pos
  else
    match hay with
    | EmptyString => -1
    | String _ rest => indexOf_from needle rest (pos + 1)
    end.

Definition indexOf (hay needle : string) : Z := indexOf_from needle hay 0.

(** [isArrayType(type)]. *)
Definition isArrayType (type : string) : bool :=
  negb (indexOf type "[]" =? -1).

(** [type.split("[")[0]]: what stands before the first ["["]. *)
Fixpoint before_bracket (type : string) : string :=
  match type with
  | EmptyString => EmptyString
  | String c rest =>
      if Ascii.eqb c "["%char then EmptyString
      else String c (before_bracket rest)
  end.

(** The ABI, as far as the serializer reads it. *)
Record Field : Type := { f_name : string; f_type : string }.

Record Struct : Type := { s_name : string; s_fields : list Field }.

Record TypeDef : Type := { new_type_name : string; t_type : string }.

Record Abi : Type := { structs : list Struct; types : list TypeDef }.

(** The imports of the file: the table [types] of built-in serializers
    with its [set] constructor, the table [ops] of operations, what a
    serializer does ([fromObject], [appendByteBuffer]) and the byte
    buffer it writes to; [ByteBuffer_bytes] is what
    [Buffer.from(b.copy(0, b.offset).toBinary(), "binary")] reads out. *)
Record Serializers : Type := {
  Serializer : Type;
  JsValue : Type;
  Obj : Type;
  ByteBuffer : Type;
  types_table : string -> option Serializer;
  ops_table : string -> option Serializer;
  types_set : Serializer -> Serializer;
  fromObject : Serializer -> JsValue -> result Obj;
  appendByteBuffer : Serializer -> ByteBuffer -> Obj -> result ByteBuffer;
  new_ByteBuffer : ByteBuffer;
  ByteBuffer_bytes : ByteBuffer -> Buffer.t
}.

(** What [serializeCallData] gives: the bytes, the [TypeError] of
    reading [fields] of [undefined], or what a serializer threw. *)
Inductive call_data : Type :=
| Bytes (buf : Buffer.t)
| TypeError
| Thrown (e : exn).

Section Serialize.

Variable T : Serializers.

(** The lookup of a field type: [types], then an alias of the ABI
    looked up in [types], then [ops]. *)
Definition resolve (abi : Abi) (type_name : string) : option (Serializer T) :=
  let type := types_table T type_name in
  let type :=
    match type with
    | Some ty => Some ty
    | None =>
        match find (fun t => String.eqb (new_type_name t) type_name)
                (types abi) with
        | Some t => types_table T (t_type t)
        | None => None
        end
    end in
  match type with
  | Some ty => Some ty
  | None => ops_table T type_name
  end.

(** The name under which a field type is looked up. *)
Definition lookup_name (f : Field) : string :=
  if isArrayType (f_type f) then before_bracket (f_type f) else f_type f.

(** Whether the lookup of a field type finds a serializer. *)
Definition resolvable (abi : Abi) (f : Field) : bool :=
  match resolve abi (lookup_name f) with
  | Some _ => true
  | None => false
  end.

(** The body of the [forEach]: one field, written to [b]. *)
Definition serializeField (abi : Abi) (params : string -> JsValue T)
    (b : ByteBuffer T) (f : Field) : result (ByteBuffer T) :=
  let value := params (f_name f) in
  let isArrayFlag := isArrayType (f_type f) in
  match resolve abi (lookup_name f) with
  | Some type =>
      let type := if isArrayFlag then types_set T type else type in
      obj <- fromObject T type value ;;
      appendByteBuffer T type b obj
  | None => Ok b
  end.

(** [struct.fields.forEach(...)]: the fields in order; a throw ends
    it. *)
Fixpoint serializeFields (abi : Abi) (params : string -> JsValue T)
    (b : ByteBuffer T) (fields : list Field) : result (ByteBuffer T) :=
  match fields with
  | [] => Ok b
  | f :: rest =>
      b' <- serializeField abi params b f ;;
      serializeFields abi params b' rest
  end.

(** [serializeCallData(action, params, abi)]. *)
Definition serializeCallData (action : string) (params : string -> JsValue T)
    (abi : Abi) : call_data :=
  let struct := find (fun s => String.eqb (s_name s) action) (structs abi) in
  let b := new_ByteBuffer T in
  match struct with
  | None => TypeError
  | Some struct =>
      match serializeFields abi params b (s_fields struct) with
      | Ok b => Bytes (ByteBuffer_bytes T b)
      | Throw e => Thrown e
      end
  end.

End Serialize.

(** A string without ["["]. *)
Fixpoint bracket_free (type : string) : bool :=
  match type with
  | EmptyString => true
  | String c rest => negb (Ascii.eqb c "["%char) && bracket_free rest
  end.

(** Serializers for the examples: a value is a list of bytes; [uint8]
    writes its first byte, [bytes] writes them all, [set] writes the
    count first; [ops] knows [transfer], which writes nothing. *)
Definition toy : Serializers := {|
  Serializer := bool * bool;
  JsValue := list byte;
  Obj := list byte;
  ByteBuffer := list byte;
  types_table := fun name =>
    if String.eqb name "uint8" then Some (false, false)
    else if String.eqb name "bytes" then Some (true, false)
    else None;
  ops_table := fun name =>
    if String.eqb name "transfer" then Some (false, false) else None;
  types_set := fun ty => (fst ty, true);
  fromObject := fun ty v =>
    match v with
    | [] => Throw (Error "missing value")
    | _ => Ok v
    end;
  appendByteBuffer := fun ty b obj =>
    let body := if fst ty then obj else firstn 1 obj in
    Ok (b ++ (if snd ty then byte_of_Z (Z.of_nat (List.length obj)) :: body
              else body));
  new_ByteBuffer := [];
  ByteBuffer_bytes := fun b => b
|}.

Definition toy_abi : Abi := {|
  structs :=
    [ {| s_name := "hi";
         s_fields := [ {| f_name := "a"; f_type := "uint8" |};
                       {| f_name := "b"; f_type := "blob[]" |};
                       {| f_name := "c"; f_type := "mystery" |} ] |} ];
  types := [ {| new_type_name := "blob"; t_type := "bytes" |} ]
|}.

Definition toy_params (name : string) : list byte :=
  if String.eqb name "a" then [x07]
  else if String.eqb name "b" then [x01; x02]
  else [].

End TxSerializer.

(** The successive calls of [signBufferSha256] that [signBuffer] makes:
    call 0 starts in world [w], call [k + 1] in the world call [k] left. *)
Fixpoint attempt (E : Collaborators) (inner : nat) (_hash : Buffer.t)
    (private_key : PrivateKey E) (w : World E) (k : nat)
  : outcome (World E) Signature :=
  match k with
  | O => signBufferSha256 E inner (JsBuffer _hash) private_key w
  | S k' =>
      obind (attempt E inner _hash private_key w k')
        (fun _ w' => signBufferSha256 E inner (JsBuffer _hash) private_key w')
  end.

(** Two conditions on the engine. It is context-free when the candidate
    it returns depends on the arguments of [sign] only; it is in range
    when every candidate has [r] and [s] in [0, 2^256) and every recovery
    parameter is one of 0, 1, 2, 3. *)
Definition context_free (E : Collaborators) : Prop :=
  forall (c : Curve E) (buf : Buffer.t) (k : BigInteger.t) (nonce : Z)
         (w1 w2 : World E),
    fst (sign E c buf k nonce w1) = fst (sign E c buf k nonce w2).

Definition engine_in_range (E : Collaborators) : Prop :=
  (forall (c : Curve E) (buf : Buffer.t) (k : BigInteger.t) (nonce : Z)
          (w : World E),
     0 <= ECSignature.r (fst (sign E c buf k nonce w)) < 2 ^ 256
     /\ 0 <= ECSignature.s (fst (sign E c buf k nonce w)) < 2 ^ 256)
  /\ (forall (c : Curve E) (e : BigInteger.t) (ecsignature : ECSignature.t)
             (P : Point E),
        0 <= calcPubKeyRecoveryParam E c e ecsignature P <= 3).

(** A 32-byte hash, and a buffer that is one byte short of one. *)
Definition sample_hash : Buffer.t := BigInteger.be_bytes 32 6.

Definition short_hash : Buffer.t := Buffer.alloc 31.

(** * Properties *)

(** ** Bytes *)

Lemma byte_val_range (b : byte) : 0 <= byte_val b < 256.
Proof.
  unfold byte_val. pose proof (Byte.to_N_bounded b). lia.
Qed.

Lemma byte_of_Z_val (b : byte) : byte_of_Z (byte_val b) = b.
Proof.
  unfold byte_of_Z. pose proof (byte_val_range b) as Hb.
  rewrite Z.mod_small by assumption.
  unfold byte_val. rewrite N2Z.id, Byte.of_to_N. reflexivity.
Qed.

Lemma byte_val_of_Z (z : Z) : byte_val (byte_of_Z z) = z mod 256.
Proof.
  unfold byte_of_Z, byte_val.
  assert (Hm : 0 <= z mod 256 < 256) by (apply Z.mod_pos_bound; lia).
  destruct (Byte.of_N (Z.to_N (z mod 256))) as [b|] eqn:Hof.
  - apply Byte.to_of_N in Hof. rewrite Hof. lia.
  - apply Byte.of_N_None_iff in Hof. lia.
Qed.

Lemma byte_of_Z_mod (z : Z) : byte_of_Z (z mod 256) = byte_of_Z z.
Proof.
  unfold byte_of_Z. rewrite Z.mod_mod by lia. reflexivity.
Qed.

(** ** Big-endian encoding *)

Module BigIntegerFacts.
Import BigInteger.

Lemma pow256_pos (n : nat) : 0 < 256 ^ Z.of_nat n.
Proof. apply Z.pow_pos_nonneg; lia. Qed.

Lemma pow256_succ (n : nat) :
  256 ^ Z.of_nat (S n) = 256 * 256 ^ Z.of_nat n.
Proof. rewrite Nat2Z.inj_succ, Z.pow_succ_r by lia. reflexivity. Qed.

Lemma be_acc_shift (bs : list byte) (acc : Z) :
  be_acc acc bs = acc * 256 ^ Z.of_nat (List.length bs) + be_acc 0 bs.
Proof.
  revert acc. induction bs as [|b rest IH]; intros acc.
  - simpl. lia.
  - cbn [be_acc List.length]. rewrite IH, (IH (0 * 256 + byte_val b)).
    rewrite pow256_succ. lia.
Qed.

Lemma fromBuffer_cons (b : byte) (bs : list byte) :
  fromBuffer (b :: bs)
  = byte_val b * 256 ^ Z.of_nat (List.length bs) + fromBuffer bs.
Proof.
  unfold fromBuffer. cbn [be_acc]. rewrite be_acc_shift. lia.
Qed.

Lemma fromBuffer_range (bs : list byte) :
  0 <= fromBuffer bs < 256 ^ Z.of_nat (List.length bs).
Proof.
  induction bs as [|b rest IH].
  - cbn. lia.
  - rewrite fromBuffer_cons. cbn [List.length]. rewrite pow256_succ.
    pose proof (byte_val_range b). pose proof (pow256_pos (List.length rest)).
    nia.
Qed.

Lemma be_bytes_length (n : nat) (x : Z) : List.length (be_bytes n x) = n.
Proof. induction n; cbn [be_bytes List.length]; congruence. Qed.

(** Only [x mod 256 ^ n] matters to [be_bytes n x]. *)
Lemma be_bytes_add_high (n : nat) (x q : Z) :
  be_bytes n (q * 256 ^ Z.of_nat n + x) = be_bytes n x.
Proof.
  revert q. induction n as [|m IH]; intros q; [reflexivity|].
  cbn [be_bytes]. f_equal.
  - rewrite pow256_succ.
    replace (q * (256 * 256 ^ Z.of_nat m) + x)
      with (x + (q * 256) * 256 ^ Z.of_nat m) by lia.
    rewrite Z.div_add by (pose proof (pow256_pos m); lia).
    rewrite <- byte_of_Z_mod, Z.add_mod, Z.mod_mul, Z.add_0_r, Z.mod_mod
      by lia.
    apply byte_of_Z_mod.
  - rewrite pow256_succ.
    replace (q * (256 * 256 ^ Z.of_nat m)) with ((q * 256) * 256 ^ Z.of_nat m)
      by lia.
    apply IH.
Qed.

Lemma be_bytes_fromBuffer (bs : list byte) :
  be_bytes (List.length bs) (fromBuffer bs) = bs.
Proof.
  induction bs as [|b rest IH]; [reflexivity|].
  cbn [List.length be_bytes]. rewrite fromBuffer_cons.
  pose proof (fromBuffer_range rest) as Hr.
  pose proof (pow256_pos (List.length rest)) as Hp.
  f_equal.
  - rewrite Z.add_comm, Z.div_add by lia.
    rewrite Z.div_small by assumption. apply byte_of_Z_val.
  - rewrite be_bytes_add_high. exact IH.
Qed.

Lemma be_bytes_fromBuffer_len (n : nat) (bs : list byte) :
  List.length bs = n -> be_bytes n (fromBuffer bs) = bs.
Proof. intros <-. apply be_bytes_fromBuffer. Qed.

Lemma fromBuffer_be_bytes (n : nat) (x : Z) :
  fromBuffer (be_bytes n x) = x mod 256 ^ Z.of_nat n.
Proof.
  induction n as [|m IH].
  - cbn. rewrite Z.mod_1_r. reflexivity.
  - cbn [be_bytes]. rewrite fromBuffer_cons, be_bytes_length, IH.
    rewrite byte_val_of_Z, pow256_succ.
    pose proof (pow256_pos m) as Hp.
    rewrite (Z.mul_comm 256), Z.rem_mul_r by lia. lia.
Qed.

Lemma fromBuffer_be_bytes_small (n : nat) (x : Z) :
  0 <= x < 256 ^ Z.of_nat n -> fromBuffer (be_bytes n x) = x.
Proof.
  intros Hx. rewrite fromBuffer_be_bytes. apply Z.mod_small. exact Hx.
Qed.

End BigIntegerFacts.

Module ToBufferFacts.
Import BigInteger BigIntegerFacts.

Lemma pow256_as_pow2 (k : Z) : 0 <= k -> 256 ^ k = 2 ^ (8 * k).
Proof.
  intros Hk. change 256 with (2 ^ 8). rewrite <- Z.pow_mul_r by lia.
  reflexivity.
Qed.

Lemma pow256_le_lt (a n : Z) (x : Z) :
  0 <= a -> 0 <= n -> 256 ^ a <= x -> x < 256 ^ n -> a < n.
Proof.
  intros Ha Hn Hlo Hhi.
  destruct (Z_lt_le_dec a n) as [Hlt|Hge]; [exact Hlt|].
  pose proof (Z.pow_le_mono_r 256 n a ltac:(lia) Hge). lia.
Qed.

(** The byte count [bitLength x / 8 + 1] of [toByteArray] is enough for
    [x], and exceeds what [x] needs by one byte at most. *)
Lemma bitLength_bounds (x : Z) :
  0 <= x ->
  0 <= bitLength x / 8
  /\ x < 256 ^ (bitLength x / 8 + 1)
  /\ (0 < bitLength x / 8 -> 256 ^ (bitLength x / 8 - 1) <= x).
Proof.
  intros Hx. unfold bitLength.
  destruct (Z.ltb_spec x 0) as [Hneg|_]; [lia|].
  destruct (Z.eqb_spec x 0) as [->|Hnz].
  - cbn. lia.
  - assert (Hpos : 0 < x) by lia.
    pose proof (Z.log2_spec x Hpos) as [Hlo Hhi].
    pose proof (Z.log2_nonneg x) as Hl.
    set (l := Z.log2 x) in *.
    pose proof (Z.div_mod (l + 1) 8 ltac:(lia)) as Hdm.
    pose proof (Z.mod_pos_bound (l + 1) 8 ltac:(lia)) as Hmb.
    set (K := (l + 1) / 8) in *.
    assert (HK : 0 <= K) by lia.
    repeat split; [exact HK| |].
    + rewrite pow256_as_pow2 by lia.
      apply Z.lt_le_trans with (2 ^ Z.succ l); [exact Hhi|].
      apply Z.pow_le_mono_r; lia.
    + intros HKpos. rewrite pow256_as_pow2 by lia.
      apply Z.le_trans with (2 ^ l); [|exact Hlo].
      apply Z.pow_le_mono_r; lia.
Qed.

Lemma be_bytes_pad (p m : nat) (x : Z) :
  0 <= x < 256 ^ Z.of_nat m ->
  be_bytes (p + m) x = repeat x00 p ++ be_bytes m x.
Proof.
  intros Hx. induction p as [|p IH]; [reflexivity|].
  cbn [Nat.add be_bytes repeat app]. rewrite IH. f_equal.
  rewrite Z.div_small; [reflexivity|].
  split; [lia|]. apply Z.lt_le_trans with (256 ^ Z.of_nat m); [lia|].
  apply Z.pow_le_mono_r; lia.
Qed.

(** [toByteArrayUnsigned] is the shortest big-endian form of [x]. *)
Lemma toByteArrayUnsigned_minimal (x : Z) :
  0 <= x ->
  exists j : nat,
    toByteArrayUnsigned x = be_bytes j x
    /\ x < 256 ^ Z.of_nat j
    /\ (forall n : nat, x < 256 ^ Z.of_nat n -> (j <= n)%nat).
Proof.
  intros Hx.
  destruct (bitLength_bounds x Hx) as (HK & Hhi & Hlo).
  unfold toByteArrayUnsigned, toByteArray.
  set (K := bitLength x / 8) in *.
  replace (Z.to_nat (K + 1)) with (S (Z.to_nat K)) by lia.
  cbn [be_bytes]. rewrite byte_val_of_Z, Z2Nat.id by exact HK.
  assert (Hp : 0 < 256 ^ K) by (apply Z.pow_pos_nonneg; lia).
  assert (Hq : 0 <= x / 256 ^ K < 256).
  { split; [apply Z.div_pos; lia|].
    apply Z.div_lt_upper_bound; [exact Hp|].
    rewrite Z.pow_add_r in Hhi by lia. lia. }
  rewrite (Z.mod_small _ _ Hq).
  destruct (Z.eqb_spec (x / 256 ^ K) 0) as [Hz|Hnz].
  - assert (Hsmall : x < 256 ^ K).
    { pose proof (Z.div_mod x (256 ^ K) ltac:(lia)) as Hdm.
      pose proof (Z.mod_pos_bound x (256 ^ K) Hp). rewrite Hz in Hdm. lia. }
    exists (Z.to_nat K). rewrite Z2Nat.id by exact HK.
    repeat split; [exact Hsmall|].
    intros n Hn.
    destruct (Z.eq_dec K 0) as [HK0|HKn]; [lia|].
    pose proof (pow256_le_lt (K - 1) (Z.of_nat n) x ltac:(lia) ltac:(lia)
                  (Hlo ltac:(lia)) Hn). lia.
  - exists (S (Z.to_nat K)).
    replace (Z.of_nat (S (Z.to_nat K))) with (K + 1) by lia.
    repeat split; [cbn [be_bytes]; rewrite Z2Nat.id by exact HK; reflexivity
                  |exact Hhi|].
    intros n Hn.
    assert (Hge : 256 ^ K <= x).
    { pose proof (Z.div_mod x (256 ^ K) ltac:(lia)) as Hdm.
      pose proof (Z.mod_pos_bound x (256 ^ K) Hp). nia. }
    pose proof (pow256_le_lt K (Z.of_nat n) x HK ltac:(lia) Hge Hn). lia.
Qed.

(** On a number that fits, [toBuffer(size)] is the fixed-width form. *)
Lemma toBuffer_fits (size : nat) (x : Z) :
  0 <= x < 256 ^ Z.of_nat size -> toBuffer x size = be_bytes size x.
Proof.
  intros [Hx Hlt].
  destruct (toByteArrayUnsigned_minimal x Hx) as (j & Hj & Hjx & Hmin).
  unfold toBuffer. rewrite Hj, be_bytes_length.
  specialize (Hmin size Hlt).
  rewrite <- be_bytes_pad by lia. f_equal. lia.
Qed.

(** Whatever the number, [toBuffer(size)] has at least [size] bytes. *)
Lemma toBuffer_length_ge (size : nat) (x : Z) :
  (size <= List.length (toBuffer x size))%nat.
Proof.
  unfold toBuffer. rewrite length_app, repeat_length. lia.
Qed.

Lemma pow256_32 : 256 ^ Z.of_nat 32 = 2 ^ 256.
Proof. reflexivity. Qed.

Lemma toBuffer_32 (x : Z) :
  0 <= x < 2 ^ 256 -> toBuffer x 32 = be_bytes 32 x.
Proof. intros Hx. apply toBuffer_fits. rewrite pow256_32. exact Hx. Qed.

End ToBufferFacts.

(** ** Buffer operations *)

Module BufferFacts.

Lemma copy_exact (pre mid post source : Buffer.t) :
  List.length mid = List.length source ->
  Buffer.copy source (pre ++ mid ++ post) (List.length pre)
  = pre ++ source ++ post.
Proof.
  intros Hlen. unfold Buffer.copy.
  rewrite !length_app.
  replace (List.length pre + (List.length mid + List.length post)
           - List.length pre)%nat
    with (List.length source + List.length post)%nat by lia.
  rewrite (firstn_all2 (n := List.length source + List.length post) source)
    by lia.
  rewrite firstn_app, Nat.sub_diag, firstn_all, firstn_O, app_nil_r.
  f_equal. f_equal.
  rewrite skipn_app, skipn_all2 by lia.
  replace (List.length pre + List.length source - List.length pre)%nat
    with (List.length mid) by lia.
  rewrite skipn_app, skipn_all, Nat.sub_diag. reflexivity.
Qed.

Lemma copy_at (pre mid post source : Buffer.t) (n : nat) :
  n = List.length pre ->
  List.length mid = List.length source ->
  Buffer.copy source (pre ++ mid ++ post) n = pre ++ source ++ post.
Proof. intros ->. apply copy_exact. Qed.

Lemma slice_r (hd : byte) (A B : Buffer.t) :
  List.length A = 32%nat -> Buffer.slice (hd :: A ++ B) 1 33 = A.
Proof.
  intros HA. unfold Buffer.slice.
  change (33 - 1)%nat with 32%nat. change (skipn 1 (hd :: A ++ B)) with (A ++ B).
  rewrite firstn_app, HA, Nat.sub_diag, firstn_O, app_nil_r.
  apply firstn_all2. lia.
Qed.

Lemma slice_s (hd : byte) (A B : Buffer.t) :
  List.length A = 32%nat -> Buffer.slice_from (hd :: A ++ B) 33 = B.
Proof.
  intros HA. unfold Buffer.slice_from.
  change (skipn 33 (hd :: A ++ B)) with (skipn 32 (A ++ B)).
  rewrite skipn_app, HA, Nat.sub_diag, skipn_all2 by lia. reflexivity.
Qed.

Lemma get_head (b : byte) (rest : Buffer.t) :
  Buffer.get (b :: rest) 0 = Some (byte_val b).
Proof. reflexivity. Qed.

Lemma get_second (a b : byte) (rest : Buffer.t) :
  Buffer.get (a :: b :: rest) 1 = Some (byte_val b).
Proof. reflexivity. Qed.

Lemma get_0_inv (buf : Buffer.t) (h : Z) :
  Buffer.get buf 0 = Some h ->
  exists b rest, buf = b :: rest /\ h = byte_val b.
Proof.
  destruct buf as [|b rest]; cbn; [discriminate|].
  intros [= <-]. eauto.
Qed.

End BufferFacts.

(** ** Wire codec *)

Section Codec.
Import BigIntegerFacts ToBufferFacts BufferFacts.

(** The header test of [fromBuffer] accepts exactly [27 .. 34]. *)
Lemma header_test (h : Z) :
  (h - 27 =? Z.land (h - 27) 7) = true <-> 27 <= h <= 34.
Proof.
  change 7 with (Z.ones 3). rewrite Z.land_ones by lia.
  change (2 ^ 3) with 8.
  pose proof (Z.mod_pos_bound (h - 27) 8 ltac:(lia)) as Hm.
  rewrite Z.eqb_eq. split.
  - intros Heq. lia.
  - intros Hr. rewrite Z.mod_small; lia.
Qed.

(** What [fromBuffer] returns on a well-formed buffer. *)
Lemma fromBuffer_ok (b : byte) (rest : Buffer.t) :
  List.length rest = 64%nat ->
  27 <= byte_val b <= 34 ->
  fromBuffer (b :: rest)
  = Ok (mkSignature (BigInteger.fromBuffer (firstn 32 rest))
          (BigInteger.fromBuffer (skipn 32 rest)) (byte_val b)).
Proof.
  intros Hlen Hh. unfold fromBuffer, assert_equal, Buffer.length.
  cbn [List.length]. rewrite Hlen. cbn [Z.eqb Z.of_nat rbind].
  change (Z.pos (Pos.of_succ_nat 64) =? 65) with true. cbn match.
  cbn [Buffer.readUInt8 nth_error rbind].
  apply header_test in Hh. rewrite Hh. reflexivity.
Qed.

(** What [toBuffer] writes: header, [r] on 32 bytes, [s] on 32 bytes. *)
Lemma toBuffer_layout (sig : Signature) :
  0 <= i sig <= 255 ->
  0 <= r sig < 2 ^ 256 ->
  0 <= s sig < 2 ^ 256 ->
  toBuffer sig
  = Ok (byte_of_Z (i sig) :: BigInteger.be_bytes 32 (r sig) ++ BigInteger.be_bytes 32 (s sig)).
Proof.
  intros Hi Hr Hs. unfold toBuffer, Buffer.writeUInt8.
  destruct (Z.ltb_spec (i sig) 0); [lia|].
  destruct (Z.ltb_spec 255 (i sig)); [lia|].
  cbn [orb]. change (List.length (Buffer.alloc 65) <=? 0)%nat with false.
  cbn [rbind]. f_equal.
  rewrite !toBuffer_32 by assumption.
  change (firstn 0 (Buffer.alloc 65) ++
          byte_of_Z (i sig) :: skipn 1 (Buffer.alloc 65))
    with ([byte_of_Z (i sig)] ++ repeat x00 32 ++ repeat x00 32).
  rewrite (copy_at [byte_of_Z (i sig)] (repeat x00 32) (repeat x00 32))
    by (try rewrite BigIntegerFacts.be_bytes_length; reflexivity).
  change ([byte_of_Z (i sig)] ++ BigInteger.be_bytes 32 (r sig)
          ++ repeat x00 32)
    with ((byte_of_Z (i sig) :: BigInteger.be_bytes 32 (r sig))
          ++ repeat x00 32 ++ []).
  rewrite copy_at;
    [|cbn [List.length]; rewrite BigIntegerFacts.be_bytes_length; reflexivity
     |rewrite BigIntegerFacts.be_bytes_length; reflexivity].
  rewrite app_nil_r. reflexivity.
Qed.

End Codec.

(** ** Claims on the wire codec *)

(** C2. Decoding a 65-byte buffer whose byte 0 lies in [27, 34] and
    encoding the result gives the buffer back; byte 0 is the header,
    then come [r] and [s], each as 32 bytes big-endian. *)
Theorem fromBuffer_toBuffer_roundtrip (b : Buffer.t) (h : Z) :
  Buffer.length b = 65 ->
  Buffer.get b 0 = Some h ->
  27 <= h <= 34 ->
  exists sig : Signature,
    fromBuffer b = Ok sig
    /\ toBuffer sig = Ok b
    /\ i sig = h
    /\ b = byte_of_Z h :: BigInteger.be_bytes 32 (r sig)
             ++ BigInteger.be_bytes 32 (s sig).
Proof.
  intros Hlen Hget Hh.
  destruct (BufferFacts.get_0_inv b h Hget) as (hd & rest & -> & ->).
  assert (Hrest : List.length rest = 64%nat).
  { unfold Buffer.length in Hlen. cbn [List.length] in Hlen. lia. }
  pose proof (BigIntegerFacts.fromBuffer_range (firstn 32 rest)) as Hr.
  pose proof (BigIntegerFacts.fromBuffer_range (skipn 32 rest)) as Hs.
  assert (Hl1 : List.length (firstn 32 rest) = 32%nat)
    by (rewrite length_firstn; lia).
  assert (Hl2 : List.length (skipn 32 rest) = 32%nat)
    by (rewrite length_skipn; lia).
  rewrite Hl1 in Hr. rewrite Hl2 in Hs.
  rewrite ToBufferFacts.pow256_32 in Hr, Hs.
  assert (Hbytes :
    byte_of_Z (byte_val hd)
      :: BigInteger.be_bytes 32 (BigInteger.fromBuffer (firstn 32 rest))
      ++ BigInteger.be_bytes 32 (BigInteger.fromBuffer (skipn 32 rest))
    = hd :: rest).
  { rewrite byte_of_Z_val.
    rewrite !BigIntegerFacts.be_bytes_fromBuffer_len by assumption.
    rewrite firstn_skipn. reflexivity. }
  eexists. split; [apply fromBuffer_ok; assumption|].
  cbn [r s i]. repeat split.
  - rewrite toBuffer_layout; cbn [r s i]; try lia. f_equal. exact Hbytes.
  - symmetry. exact Hbytes.
Qed.

Lemma fromBuffer_toBuffer_roundtrip_witness :
  Buffer.length sample_buffer = 65
  /\ Buffer.get sample_buffer 0 = Some 31
  /\ 27 <= 31 <= 34
  /\ exists sig : Signature,
       fromBuffer sample_buffer = Ok sig
       /\ toBuffer sig = Ok sample_buffer
       /\ i sig = 31
       /\ sample_buffer
          = byte_of_Z 31 :: BigInteger.be_bytes 32 (r sig)
              ++ BigInteger.be_bytes 32 (s sig).
Proof.
  assert (H1 : Buffer.length sample_buffer = 65) by reflexivity.
  assert (H2 : Buffer.get sample_buffer 0 = Some 31) by reflexivity.
  assert (H3 : 27 <= 31 <= 34) by lia.
  repeat split; try assumption; try lia.
  exact (fromBuffer_toBuffer_roundtrip sample_buffer 31 H1 H2 H3).
Defined.

(** C3. [fromBuffer] fails exactly on malformed input, each way with
    its own error: a buffer that is not 65 bytes long fails the length
    assertion ("Invalid signature length", the InputError of the
    specification); a 65-byte buffer whose byte 0 is outside [27, 34]
    fails the header assertion ("Invalid signature parameter", its
    FormatError); a 65-byte buffer with byte 0 in [27, 34] decodes. *)
Theorem fromBuffer_errors (b : Buffer.t) :
  (Buffer.length b <> 65 ->
   fromBuffer b = Throw (AssertionError "Invalid signature length"))
  /\ (forall h : Z,
        Buffer.length b = 65 -> Buffer.get b 0 = Some h ->
        ~ 27 <= h <= 34 ->
        fromBuffer b = Throw (AssertionError "Invalid signature parameter"))
  /\ (forall h : Z,
        Buffer.length b = 65 -> Buffer.get b 0 = Some h ->
        27 <= h <= 34 ->
        exists sig : Signature, fromBuffer b = Ok sig).
Proof.
  repeat split.
  - intros Hlen. unfold fromBuffer, assert_equal.
    destruct (Z.eqb_spec (Buffer.length b) 65); [contradiction|reflexivity].
  - intros h Hlen Hget Hh.
    destruct (BufferFacts.get_0_inv b h Hget) as (hd & rest & -> & ->).
    unfold fromBuffer, assert_equal. rewrite Hlen.
    cbn [Z.eqb Pos.eqb rbind Buffer.readUInt8 nth_error].
    destruct (byte_val hd - 27 =? Z.land (byte_val hd - 27) 7) eqn:Htest;
      [|reflexivity].
    exfalso. apply Hh. apply header_test. exact Htest.
  - intros h Hlen Hget Hh.
    destruct (BufferFacts.get_0_inv b h Hget) as (hd & rest & -> & ->).
    eexists. apply fromBuffer_ok; [|exact Hh].
    unfold Buffer.length in Hlen. cbn [List.length] in Hlen. lia.
Qed.

Lemma fromBuffer_errors_witness :
  (Buffer.length (Buffer.alloc 64) <> 65
   /\ fromBuffer (Buffer.alloc 64)
      = Throw (AssertionError "Invalid signature length"))
  /\ (Buffer.length (Buffer.alloc 66) <> 65
      /\ fromBuffer (Buffer.alloc 66)
         = Throw (AssertionError "Invalid signature length"))
  /\ (Buffer.get (x1a :: Buffer.alloc 64) 0 = Some 26
      /\ fromBuffer (x1a :: Buffer.alloc 64)
         = Throw (AssertionError "Invalid signature parameter"))
  /\ (Buffer.get (x23 :: Buffer.alloc 64) 0 = Some 35
      /\ fromBuffer (x23 :: Buffer.alloc 64)
         = Throw (AssertionError "Invalid signature parameter"))
  /\ (Buffer.get sample_buffer 0 = Some 31
      /\ exists sig : Signature, fromBuffer sample_buffer = Ok sig).
Proof.
  assert (H64 : Buffer.length (Buffer.alloc 64) <> 65)
    by (vm_compute; discriminate).
  assert (H66 : Buffer.length (Buffer.alloc 66) <> 65)
    by (vm_compute; discriminate).
  split; [split; [exact H64|]|split; [split; [exact H66|]|]].
  - exact (proj1 (fromBuffer_errors (Buffer.alloc 64)) H64).
  - exact (proj1 (fromBuffer_errors (Buffer.alloc 66)) H66).
  - split; [split; [reflexivity|]|split; [split; [reflexivity|]|]].
    + apply (proj1 (proj2 (fromBuffer_errors (x1a :: Buffer.alloc 64))) 26);
        [reflexivity|reflexivity|lia].
    + apply (proj1 (proj2 (fromBuffer_errors (x23 :: Buffer.alloc 64))) 35);
        [reflexivity|reflexivity|lia].
    + split; [reflexivity|].
      apply (proj2 (proj2 (fromBuffer_errors sample_buffer)) 31);
        [reflexivity|reflexivity|lia].
Defined.

(** C10. Encoding a signature whose header lies in [27, 34] and whose
    [r] and [s] are non-negative and below 2^256, then decoding the
    buffer, succeeds and gives the same [r], [s] and header. *)
Theorem toBuffer_fromBuffer_roundtrip (sig : Signature) :
  27 <= i sig <= 34 ->
  0 <= r sig < 2 ^ 256 ->
  0 <= s sig < 2 ^ 256 ->
  exists b : Buffer.t, toBuffer sig = Ok b /\ fromBuffer b = Ok sig.
Proof.
  intros Hi Hr Hs. eexists. split.
  - apply toBuffer_layout; lia.
  - assert (Hlr : List.length (BigInteger.be_bytes 32 (r sig)) = 32%nat)
      by apply BigIntegerFacts.be_bytes_length.
    assert (Hls : List.length (BigInteger.be_bytes 32 (s sig)) = 32%nat)
      by apply BigIntegerFacts.be_bytes_length.
    assert (Hv : byte_val (byte_of_Z (i sig)) = i sig)
      by (rewrite byte_val_of_Z; apply Z.mod_small; lia).
    rewrite fromBuffer_ok.
    + rewrite Hv.
      rewrite firstn_app, Hlr, Nat.sub_diag, firstn_O, app_nil_r.
      rewrite firstn_all2 by lia.
      rewrite skipn_app, Hlr, Nat.sub_diag, skipn_all2 by lia.
      cbn [skipn app].
      rewrite !BigIntegerFacts.fromBuffer_be_bytes_small
        by (rewrite ToBufferFacts.pow256_32; assumption).
      destruct sig; reflexivity.
    + rewrite length_app, Hlr, Hls. reflexivity.
    + rewrite Hv. exact Hi.
Qed.

Lemma toBuffer_fromBuffer_roundtrip_witness :
  27 <= i sample_signature <= 34
  /\ 0 <= r sample_signature < 2 ^ 256
  /\ 0 <= s sample_signature < 2 ^ 256
  /\ exists b : Buffer.t,
       toBuffer sample_signature = Ok b
       /\ fromBuffer b = Ok sample_signature.
Proof.
  assert (Hi : 27 <= i sample_signature <= 34) by (cbn; lia).
  assert (Hr : 0 <= r sample_signature < 2 ^ 256) by (cbn; lia).
  assert (Hs : 0 <= s sample_signature < 2 ^ 256) by (cbn; lia).
  repeat split; try apply Hi; try apply Hr; try apply Hs.
  exact (toBuffer_fromBuffer_roundtrip sample_signature Hi Hr Hs).
Defined.

(** C9. On a signature whose [r] and [s] fit 32 bytes, [isCanonical]
    and [toBuffer] return. The 32-byte re-encoding of [r] and of [s] has
    exactly 32 bytes and reads back as the number it encodes, so nothing
    is cut off; [isCanonical] is a boolean; and [toBuffer], the header
    being the unsigned byte of the data model, gives a buffer of 65
    bytes that holds [r] and [s] in full. *)
Theorem toBuffer_isCanonical_total (sig : Signature) :
  0 <= r sig < 2 ^ 256 ->
  0 <= s sig < 2 ^ 256 ->
  (List.length (BigInteger.toBuffer (r sig) 32) = 32%nat
   /\ BigInteger.fromBuffer (BigInteger.toBuffer (r sig) 32) = r sig)
  /\ (List.length (BigInteger.toBuffer (s sig) 32) = 32%nat
      /\ BigInteger.fromBuffer (BigInteger.toBuffer (s sig) 32) = s sig)
  /\ (exists c : bool, isCanonical sig = c)
  /\ (0 <= i sig <= 255 ->
      exists buf : Buffer.t,
        toBuffer sig = Ok buf
        /\ Buffer.length buf = 65
        /\ BigInteger.fromBuffer (Buffer.slice buf 1 33) = r sig
        /\ BigInteger.fromBuffer (Buffer.slice_from buf 33) = s sig).
Proof.
  intros Hr Hs.
  assert (Hlr : List.length (BigInteger.be_bytes 32 (r sig)) = 32%nat)
    by apply BigIntegerFacts.be_bytes_length.
  assert (Hls : List.length (BigInteger.be_bytes 32 (s sig)) = 32%nat)
    by apply BigIntegerFacts.be_bytes_length.
  assert (Hdr : BigInteger.fromBuffer (BigInteger.be_bytes 32 (r sig)) = r sig)
    by (apply BigIntegerFacts.fromBuffer_be_bytes_small;
        rewrite ToBufferFacts.pow256_32; assumption).
  assert (Hds : BigInteger.fromBuffer (BigInteger.be_bytes 32 (s sig)) = s sig)
    by (apply BigIntegerFacts.fromBuffer_be_bytes_small;
        rewrite ToBufferFacts.pow256_32; assumption).
  rewrite !ToBufferFacts.toBuffer_32 by assumption.
  split; [split; assumption|]. split; [split; assumption|].
  split; [eexists; reflexivity|].
  intros Hi. eexists. split; [apply toBuffer_layout; assumption|].
  rewrite BufferFacts.slice_r, BufferFacts.slice_s by assumption.
  unfold Buffer.length. cbn [List.length].
  rewrite length_app, Hlr, Hls. repeat split; assumption.
Qed.

Lemma toBuffer_isCanonical_total_witness :
  0 <= r sample_signature < 2 ^ 256
  /\ 0 <= s sample_signature < 2 ^ 256
  /\ (List.length (BigInteger.toBuffer (r sample_signature) 32) = 32%nat
      /\ BigInteger.fromBuffer (BigInteger.toBuffer (r sample_signature) 32)
         = r sample_signature)
  /\ (List.length (BigInteger.toBuffer (s sample_signature) 32) = 32%nat
      /\ BigInteger.fromBuffer (BigInteger.toBuffer (s sample_signature) 32)
         = s sample_signature)
  /\ (exists c : bool, isCanonical sample_signature = c)
  /\ (0 <= i sample_signature <= 255 ->
      exists buf : Buffer.t,
        toBuffer sample_signature = Ok buf
        /\ Buffer.length buf = 65
        /\ BigInteger.fromBuffer (Buffer.slice buf 1 33) = r sample_signature
        /\ BigInteger.fromBuffer (Buffer.slice_from buf 33)
           = s sample_signature).
Proof.
  assert (Hr : 0 <= r sample_signature < 2 ^ 256) by (cbn; lia).
  assert (Hs : 0 <= s sample_signature < 2 ^ 256) by (cbn; lia).
  split; [exact Hr|]. split; [exact Hs|].
  exact (toBuffer_isCanonical_total sample_signature Hr Hs).
Defined.

(** [toBuffer] rejects a header that is not a byte. *)
Lemma toBuffer_header_range (sig : Signature) :
  i sig < 0 \/ 255 < i sig ->
  toBuffer sig = Throw (RangeError "value is out of bounds").
Proof.
  intros Hi. unfold toBuffer, Buffer.writeUInt8.
  destruct (Z.ltb_spec (i sig) 0); [reflexivity|].
  destruct (Z.ltb_spec 255 (i sig)); [reflexivity|lia].
Qed.

(** ** Canonicality *)

Lemma land_128 (v : Z) : js_not (Z.land v 128) = negb (top_bit v).
Proof.
  unfold js_not, top_bit.
  assert (Hland : Z.land v 128 = if Z.testbit v 7 then 128 else 0).
  { apply Z.bits_inj'. intros n Hn. rewrite Z.land_spec.
    change 128 with (2 ^ 7). rewrite Z.pow2_bits_eqb by lia.
    destruct (Z.eqb_spec 7 n) as [<-|Hne].
    - rewrite andb_true_r. destruct (Z.testbit v 7).
      + rewrite Z.pow2_bits_eqb by lia. reflexivity.
      + rewrite Z.bits_0. reflexivity.
    - rewrite andb_false_r. destruct (Z.testbit v 7).
      + rewrite Z.pow2_bits_eqb by lia. symmetry. apply Z.eqb_neq. exact Hne.
      + rewrite Z.bits_0. reflexivity. }
  rewrite Hland. destruct (Z.testbit v 7); reflexivity.
Qed.

(** The part of [isCanonical] that looks at one 32-byte buffer. *)
Lemma canonical_cells (x : Z) :
  js_not (js_land (Buffer.get (BigInteger.be_bytes 32 x) 0) 128)
  && negb (js_eq (Buffer.get (BigInteger.be_bytes 32 x) 0) 0
           && js_not (js_land (Buffer.get (BigInteger.be_bytes 32 x) 1) 128))
  = true
  <-> spec_canonical_int x.
Proof.
  assert (H0 : Buffer.get (BigInteger.be_bytes 32 x) 0
               = Some (be32_byte x 0)).
  { cbn [BigInteger.be_bytes]. rewrite BufferFacts.get_head, byte_val_of_Z.
    reflexivity. }
  assert (H1 : Buffer.get (BigInteger.be_bytes 32 x) 1
               = Some (be32_byte x 1)).
  { cbn [BigInteger.be_bytes]. rewrite BufferFacts.get_second, byte_val_of_Z.
    reflexivity. }
  rewrite H0, H1. unfold spec_canonical_int. cbn [js_land js_eq].
  rewrite !land_128.
  destruct (top_bit (be32_byte x 0)), (top_bit (be32_byte x 1)),
    (Z.eqb_spec (be32_byte x 0) 0); cbn; split;
    try discriminate; try tauto; intuition discriminate.
Qed.

(** C4. For [r] and [s] that fit 32 bytes, [isCanonical] is true
    exactly when, in the 32-byte big-endian forms of [r] and of [s], the
    top bit of byte 0 is clear and it is not the case that byte 0 is
    zero while the top bit of byte 1 is clear. *)
Theorem isCanonical_spec (sig : Signature) :
  0 <= r sig < 2 ^ 256 ->
  0 <= s sig < 2 ^ 256 ->
  (isCanonical sig = true <-> spec_canonical sig).
Proof.
  intros Hr Hs. unfold isCanonical, spec_canonical.
  rewrite !ToBufferFacts.toBuffer_32 by assumption.
  rewrite <- (canonical_cells (r sig)), <- (canonical_cells (s sig)).
  rewrite <- andb_assoc. rewrite !andb_true_iff. tauto.
Qed.

Lemma isCanonical_spec_witness :
  0 <= r sample_signature < 2 ^ 256
  /\ 0 <= s sample_signature < 2 ^ 256
  /\ (isCanonical sample_signature = true <-> spec_canonical sample_signature).
Proof.
  assert (Hr : 0 <= r sample_signature < 2 ^ 256) by (cbn; lia).
  assert (Hs : 0 <= s sample_signature < 2 ^ 256) by (cbn; lia).
  split; [exact Hr|]. split; [exact Hs|].
  exact (isCanonical_spec sample_signature Hr Hs).
Defined.

(** On a byte the top bit is set from 128 on. *)
Lemma top_bit_byte (v : Z) : 0 <= v < 256 -> top_bit v = (128 <=? v).
Proof.
  intros Hv. unfold top_bit. rewrite Z.testbit_odd, Z.shiftr_div_pow2 by lia.
  change (2 ^ 7) with 128.
  pose proof (Z.div_mod v 128 ltac:(lia)) as Hdm.
  pose proof (Z.mod_pos_bound v 128 ltac:(lia)) as Hmb.
  destruct (Z.leb_spec 128 v) as [Hge|Hlt].
  - replace (v / 128) with 1 by nia. reflexivity.
  - replace (v / 128) with 0 by nia. reflexivity.
Qed.

(** Read as numbers, the canonical ones are those from 2^247 up to
    2^255. *)
Lemma spec_canonical_int_range (x : Z) :
  0 <= x < 2 ^ 256 ->
  (spec_canonical_int x <-> 2 ^ 247 <= x < 2 ^ 255).
Proof.
  intros Hx. unfold spec_canonical_int, be32_byte.
  change (256 ^ (31 - 0)) with (2 ^ 248). change (256 ^ (31 - 1)) with (2 ^ 240).
  pose proof (Z.div_mod x (2 ^ 248) ltac:(lia)) as Hd0.
  pose proof (Z.mod_pos_bound x (2 ^ 248) ltac:(lia)) as Hm0.
  pose proof (Z.div_mod x (2 ^ 240) ltac:(lia)) as Hd1.
  pose proof (Z.mod_pos_bound x (2 ^ 240) ltac:(lia)) as Hm1.
  pose proof (Z.mod_pos_bound (x / 2 ^ 240) 256 ltac:(lia)) as Hb1.
  pose proof (Z.div_mod (x / 2 ^ 240) 256 ltac:(lia)) as Hd2.
  assert (H0 : 0 <= x / 2 ^ 248 < 256) by lia.
  rewrite (Z.mod_small _ _ H0).
  rewrite !top_bit_byte by assumption.
  destruct (Z.leb_spec 128 (x / 2 ^ 248)) as [Ha|Ha],
    (Z.leb_spec 128 ((x / 2 ^ 240) mod 256)) as [Hb|Hb].
  - split; [intros [Hf _]; discriminate|lia].
  - split; [intros [Hf _]; discriminate|lia].
  - split; [lia|]. intros _. split; [reflexivity|].
    intros [_ Hf]. discriminate.
  - split.
    + intros [_ Hn]. destruct (Z.eq_dec (x / 2 ^ 248) 0) as [Hz|Hz]; [|lia].
      exfalso. apply Hn. split; [exact Hz|reflexivity].
    + intros Hr. split; [reflexivity|]. intros [Hz _]. lia.
Qed.

Lemma isCanonical_range (sig : Signature) :
  0 <= r sig < 2 ^ 256 ->
  0 <= s sig < 2 ^ 256 ->
  (isCanonical sig = true
   <-> 2 ^ 247 <= r sig < 2 ^ 255 /\ 2 ^ 247 <= s sig < 2 ^ 255).
Proof.
  intros Hr Hs. unfold isCanonical.
  rewrite !ToBufferFacts.toBuffer_32 by assumption.
  rewrite <- (spec_canonical_int_range (r sig) Hr).
  rewrite <- (spec_canonical_int_range (s sig) Hs).
  rewrite <- (canonical_cells (r sig)), <- (canonical_cells (s sig)).
  rewrite <- andb_assoc. rewrite !andb_true_iff. tauto.
Qed.

(** Three signatures: a canonical one, one whose [r] has its top bit
    set, one whose [r] is too short. *)
Lemma sample_is_canonical : isCanonical sample_signature = true.
Proof. vm_compute. reflexivity. Qed.

Lemma high_bit_not_canonical :
  isCanonical (mkSignature (2 ^ 255) (2 ^ 248) 31) = false.
Proof. vm_compute. reflexivity. Qed.

Lemma short_not_canonical :
  isCanonical (mkSignature (2 ^ 246) (2 ^ 248) 31) = false.
Proof. vm_compute. reflexivity. Qed.

(** ** The nonce loop *)

Section NonceLoop.

Variable E : Collaborators.
Variable buf_sha256 : Buffer.t.
Variable private_key : PrivateKey E.

Local Abbreviation e := (BigInteger.fromBuffer buf_sha256).

(** One turn of the loop: the candidate is accepted, or the loop goes
    on with the next nonce in the world the call left. *)
Lemma nonce_loop_step (fuel : nat) (nonce : Z) (w : World E) :
  nonce_loop E (S fuel) buf_sha256 e private_key nonce w
  = let (ecsignature, w') :=
      sign E (secp256k1 E) buf_sha256 (d E private_key) nonce w in
    if lengthCanonical E ecsignature then
      Returns (ecsignature,
               calcPubKeyRecoveryParam E (secp256k1 E) e ecsignature
                 (Q E (toPublicKey E private_key)) + 4 + 27) w'
    else nonce_loop E fuel buf_sha256 e private_key (nonce + 1) w'.
Proof. reflexivity. Qed.

(** The loop never throws, and what it returns is a candidate that
    passed the length test, with the header computed from it. *)
Lemma nonce_loop_returns (fuel : nat) (nonce : Z) (w w' : World E)
    (ecsignature : ECSignature.t) (i : Z) :
  nonce_loop E fuel buf_sha256 e private_key nonce w
  = Returns (ecsignature, i) w' ->
  lengthCanonical E ecsignature = true
  /\ i = calcPubKeyRecoveryParam E (secp256k1 E) e ecsignature
           (Q E (toPublicKey E private_key)) + 4 + 27.
Proof.
  revert nonce w. induction fuel as [|fuel IH]; intros nonce w.
  - discriminate.
  - rewrite nonce_loop_step.
    destruct (sign E (secp256k1 E) buf_sha256 (d E private_key) nonce w)
      as [c w1].
    destruct (lengthCanonical E c) eqn:Hc.
    + intros [= <- <- <-]. split; [exact Hc|reflexivity].
    + apply IH.
Qed.

Lemma nonce_loop_no_throw (fuel : nat) (nonce : Z) (w : World E) (x : exn) :
  nonce_loop E fuel buf_sha256 e private_key nonce w <> Raises x.
Proof.
  revert nonce w. induction fuel as [|fuel IH]; intros nonce w.
  - discriminate.
  - rewrite nonce_loop_step.
    destruct (sign E (secp256k1 E) buf_sha256 (d E private_key) nonce w)
      as [c w1].
    destruct (lengthCanonical E c); [discriminate|apply IH].
Qed.

Variable w0 : World E.

Local Abbreviation world n := (world_at E buf_sha256 private_key w0 n).
Local Abbreviation cand n := (candidate E buf_sha256 private_key w0 n).

Lemma sign_at (n : nat) :
  sign E (secp256k1 E) buf_sha256 (d E private_key) (Z.of_nat n) (world n)
  = (cand n, world (S n)).
Proof. unfold candidate. cbn [world_at]. apply surjective_pairing. Qed.

(** Entered at nonce [n], the loop returns the first accepted candidate
    from [n] on, provided the fuel reaches it. *)
Lemma nonce_loop_finds (m : nat) :
  lengthCanonical E (cand m) = true ->
  forall (k n fuel : nat),
    (n + k = m)%nat ->
    (forall j : nat, (n <= j < m)%nat -> lengthCanonical E (cand j) = false) ->
    (k < fuel)%nat ->
    nonce_loop E fuel buf_sha256 e private_key (Z.of_nat n) (world n)
    = Returns (cand m,
               calcPubKeyRecoveryParam E (secp256k1 E) e (cand m)
                 (Q E (toPublicKey E private_key)) + 4 + 27) (world (S m)).
Proof.
  intros Hm. induction k as [|k IH]; intros n fuel Hn Hrej Hfuel.
  - destruct fuel as [|fuel]; [lia|].
    rewrite nonce_loop_step, sign_at.
    replace n with m by lia. rewrite Hm. reflexivity.
  - destruct fuel as [|fuel]; [lia|].
    rewrite nonce_loop_step, sign_at, (Hrej n) by lia.
    replace (Z.of_nat n + 1) with (Z.of_nat (S n)) by lia.
    apply IH; [lia| |lia]. intros j Hj. apply Hrej. lia.
Qed.

(** With fuel for rejected candidates only, the loop is still running. *)
Lemma nonce_loop_starves (fuel n : nat) :
  (forall j : nat, (n <= j < n + fuel)%nat ->
                   lengthCanonical E (cand j) = false) ->
  nonce_loop E fuel buf_sha256 e private_key (Z.of_nat n) (world n)
  = OutOfFuel.
Proof.
  revert n. induction fuel as [|fuel IH]; intros n Hrej; [reflexivity|].
  rewrite nonce_loop_step, sign_at, (Hrej n) by lia.
  replace (Z.of_nat n + 1) with (Z.of_nat (S n)) by lia.
  apply IH. intros j Hj. apply Hrej. lia.
Qed.

End NonceLoop.

(** A true boolean predicate on [nat] has a least true point. *)
Lemma least_true (P : nat -> bool) (n : nat) :
  P n = true ->
  exists m : nat,
    (m <= n)%nat /\ P m = true /\ forall j : nat, (j < m)%nat -> P j = false.
Proof.
  induction n as [n IH] using lt_wf_ind. intros Hn.
  assert (Hdec : (exists j, (j < n)%nat /\ P j = true)
                 \/ (forall j, (j < n)%nat -> P j = false)).
  { clear IH Hn. induction n as [|n [(j & Hj & Hp)|Hall]].
    - right. intros j Hj. lia.
    - left. exists j. split; [lia|exact Hp].
    - destruct (P n) eqn:Hpn.
      + left. exists n. split; [lia|exact Hpn].
      + right. intros j Hj.
        destruct (Nat.eq_dec j n) as [->|Hne]; [exact Hpn|apply Hall; lia]. }
  destruct Hdec as [(j & Hj & Hp)|Hall].
  - destruct (IH j Hj Hp) as (m & Hm & Hpm & Hleast).
    exists m. split; [lia|]. split; assumption.
  - exists n. split; [lia|]. split; assumption.
Qed.

(** ** Claims on signing *)

(** On a 32-byte buffer [signBufferSha256] is its nonce loop, entered
    with nonce 0. *)
Lemma signBufferSha256_proceeds (E : Collaborators) (fuel : nat)
    (buf : Buffer.t) (private_key : PrivateKey E) (w : World E) :
  Buffer.length buf = 32 ->
  signBufferSha256 E fuel (JsBuffer buf) private_key w
  = obind (nonce_loop E fuel buf (BigInteger.fromBuffer buf) private_key 0 w)
      (fun '(ecsignature, i) w' =>
         Returns (mkSignature (ECSignature.r ecsignature)
                    (ECSignature.s ecsignature) i) w').
Proof.
  intros Hlen. unfold signBufferSha256. cbn [js_length Buffer_isBuffer].
  rewrite Hlen. reflexivity.
Qed.

(** Whatever [signBufferSha256] returns was built from a candidate that
    passed the length test. *)
Lemma signBufferSha256_returns (E : Collaborators) (fuel : nat)
    (arg : js_bytes) (private_key : PrivateKey E) (w w' : World E)
    (sig : Signature) :
  signBufferSha256 E fuel arg private_key w = Returns sig w' ->
  exists (buf : Buffer.t) (ecsignature : ECSignature.t),
    arg = JsBuffer buf
    /\ Buffer.length buf = 32
    /\ lengthCanonical E ecsignature = true
    /\ sig = signature_of E buf private_key ecsignature.
Proof.
  unfold signBufferSha256.
  destruct (Z.eqb_spec (js_length arg) 32) as [Hlen|Hlen];
    [|discriminate].
  destruct arg as [buf|str]; cbn [Buffer_isBuffer negb orb];
    [|discriminate].
  destruct (nonce_loop E fuel buf (BigInteger.fromBuffer buf) private_key 0 w)
    as [[c hdr] w1| |] eqn:Hloop; cbn [obind]; try discriminate.
  intros [= <- <-].
  apply nonce_loop_returns in Hloop. destruct Hloop as [Hc ->].
  exists buf, c. repeat split; assumption.
Qed.

(** C6. If some nonce gives a candidate whose two DER integer lengths
    are both 32, the nonce loop of [signBufferSha256] terminates: there
    is a least such nonce [m], every run with more than [m] units of
    fuel returns the signature built from the candidate of nonce [m]
    after exactly the calls with nonces 0 .. [m], and no run stops
    earlier. *)
Theorem nonce_search_terminates (E : Collaborators) (hash : Buffer.t)
    (private_key : PrivateKey E) (w : World E) (n : nat) :
  Buffer.length hash = 32 ->
  lengthCanonical E (candidate E hash private_key w n) = true ->
  exists m : nat,
    (m <= n)%nat
    /\ lengthCanonical E (candidate E hash private_key w m) = true
    /\ (forall j : nat,
          (j < m)%nat ->
          lengthCanonical E (candidate E hash private_key w j) = false)
    /\ (forall fuel : nat,
          (m < fuel)%nat ->
          signBufferSha256 E fuel (JsBuffer hash) private_key w
          = Returns
              (signature_of E hash private_key
                 (candidate E hash private_key w m))
              (world_at E hash private_key w (S m)))
    /\ (forall fuel : nat,
          (fuel <= m)%nat ->
          signBufferSha256 E fuel (JsBuffer hash) private_key w = OutOfFuel).
Proof.
  intros Hlen Hn.
  destruct (least_true
              (fun k => lengthCanonical E (candidate E hash private_key w k))
              n Hn) as (m & Hmn & Hm & Hleast).
  exists m. repeat split; try assumption.
  - intros fuel Hfuel. rewrite signBufferSha256_proceeds by exact Hlen.
    change 0 with (Z.of_nat 0).
    change w with (world_at E hash private_key w 0) at 1.
    rewrite (nonce_loop_finds E hash private_key w m Hm m 0 fuel);
      [reflexivity|lia| |lia].
    intros j Hj. apply Hleast. lia.
  - intros fuel Hfuel. rewrite signBufferSha256_proceeds by exact Hlen.
    change 0 with (Z.of_nat 0).
    change w with (world_at E hash private_key w 0) at 1.
    rewrite nonce_loop_starves; [reflexivity|].
    intros j Hj. apply Hleast. lia.
Qed.

Lemma nonce_search_terminates_witness :
  Buffer.length sample_hash = 32
  /\ lengthCanonical nonce_engine
       (candidate nonce_engine sample_hash 7 0%nat 2) = true
  /\ exists m : nat,
       (m <= 2)%nat
       /\ lengthCanonical nonce_engine
            (candidate nonce_engine sample_hash 7 0%nat m) = true
       /\ (forall j : nat,
             (j < m)%nat ->
             lengthCanonical nonce_engine
               (candidate nonce_engine sample_hash 7 0%nat j) = false)
       /\ (forall fuel : nat,
             (m < fuel)%nat ->
             signBufferSha256 nonce_engine fuel (JsBuffer sample_hash) 7 0%nat
             = Returns
                 (signature_of nonce_engine sample_hash 7
                    (candidate nonce_engine sample_hash 7 0%nat m))
                 (world_at nonce_engine sample_hash 7 0%nat (S m)))
       /\ (forall fuel : nat,
             (fuel <= m)%nat ->
             signBufferSha256 nonce_engine fuel (JsBuffer sample_hash) 7 0%nat
             = OutOfFuel).
Proof.
  assert (H1 : Buffer.length sample_hash = 32) by reflexivity.
  assert (H2 : lengthCanonical nonce_engine
                 (candidate nonce_engine sample_hash 7 0%nat 2) = true)
    by (vm_compute; reflexivity).
  split; [exact H1|]. split; [exact H2|].
  exact (nonce_search_terminates nonce_engine sample_hash 7 0%nat 2 H1 H2).
Defined.

Lemma unpack_header (rp : Z) :
  0 <= rp <= 3 -> Z.land (rp + 4 + 27 - 27) 3 = rp.
Proof.
  intros Hrp.
  assert (Hcases : rp = 0 \/ rp = 1 \/ rp = 2 \/ rp = 3) by lia.
  destruct Hcases as [->|[->|[->| ->]]]; reflexivity.
Qed.

(** C5. A signature returned by [signBufferSha256] stores as header the
    recovery parameter computed for its candidate, plus 4, plus 27; when
    that parameter is one of 0, 1, 2, 3 the header lies in [31, 34] and
    [recoverPublicKey] unpacks exactly that parameter from it and hands
    it to the engine. *)
Theorem header_pack_unpack (E : Collaborators) (fuel : nat) (arg : js_bytes)
    (private_key : PrivateKey E) (w w' : World E) (sig : Signature) :
  signBufferSha256 E fuel arg private_key w = Returns sig w' ->
  exists (buf : Buffer.t) (ecsignature : ECSignature.t),
    arg = JsBuffer buf
    /\ r sig = ECSignature.r ecsignature
    /\ s sig = ECSignature.s ecsignature
    /\ let rp := calcPubKeyRecoveryParam E (secp256k1 E)
                   (BigInteger.fromBuffer buf) ecsignature
                   (Q E (toPublicKey E private_key)) in
       i sig = rp + 4 + 27
       /\ (0 <= rp <= 3 ->
           31 <= i sig <= 34
           /\ recoveryIndex sig = rp
           /\ forall sha256_buffer : Buffer.t,
                recoverPublicKey E sig sha256_buffer
                = PublicKey_fromPoint E
                    (recoverPubKey E (secp256k1 E)
                       (BigInteger.fromBuffer sha256_buffer) sig rp)).
Proof.
  intros Hret.
  destruct (signBufferSha256_returns E fuel arg private_key w w' sig Hret)
    as (buf & c & -> & _ & _ & ->).
  exists buf, c. unfold signature_of. cbn [r s i]. cbv zeta.
  do 4 (split; [reflexivity|]).
  intros Hrp. split; [lia|]. split.
  - unfold recoveryIndex. cbn [i]. apply unpack_header. exact Hrp.
  - intros sha256_buffer. unfold recoverPublicKey, recoveryIndex. cbn [i].
    rewrite unpack_header by exact Hrp. reflexivity.
Qed.

Lemma header_pack_unpack_witness :
  signBufferSha256 nonce_engine 5 (JsBuffer sample_hash) 7 0%nat
  = Returns (mkSignature (256 ^ 31) (2 ^ 248 + 7) 33) 3%nat
  /\ exists (buf : Buffer.t) (ecsignature : ECSignature.t),
       JsBuffer sample_hash = JsBuffer buf
       /\ 256 ^ 31 = ECSignature.r ecsignature
       /\ 2 ^ 248 + 7 = ECSignature.s ecsignature
       /\ let rp := BigInteger.fromBuffer buf mod 4 in
          33 = rp + 4 + 27
          /\ (0 <= rp <= 3 ->
              31 <= 33 <= 34
              /\ recoveryIndex (mkSignature (256 ^ 31) (2 ^ 248 + 7) 33) = rp
              /\ forall sha256_buffer : Buffer.t,
                   recoverPublicKey nonce_engine
                     (mkSignature (256 ^ 31) (2 ^ 248 + 7) 33) sha256_buffer
                   = rp).
Proof.
  assert (H : signBufferSha256 nonce_engine 5 (JsBuffer sample_hash) 7 0%nat
              = Returns (mkSignature (256 ^ 31) (2 ^ 248 + 7) 33) 3%nat)
    by (vm_compute; reflexivity).
  split; [exact H|].
  exact (header_pack_unpack nonce_engine 5 (JsBuffer sample_hash) 7 0%nat
           3%nat (mkSignature (256 ^ 31) (2 ^ 248 + 7) 33) H).
Defined.

(** The retry loop of [signBuffer] hands back a signature only after
    [isCanonical] has accepted it. *)
Lemma canonical_loop_returns (E : Collaborators) (inner fuel : nat)
    (_hash : Buffer.t) (private_key : PrivateKey E)
    (signature sig : Signature) (w w' : World E) :
  canonical_loop E inner fuel _hash private_key signature w = Returns sig w' ->
  isCanonical sig = true.
Proof.
  revert signature w. induction fuel as [|fuel IH]; intros signature w.
  - cbn [canonical_loop]. destruct (isCanonical signature) eqn:Hc.
    + intros [= <- _]. exact Hc.
    + discriminate.
  - cbn [canonical_loop]. destruct (isCanonical signature) eqn:Hc.
    + intros [= <- _]. exact Hc.
    + destruct (signBufferSha256 E inner (JsBuffer _hash) private_key w)
        as [sig1 w1| |]; cbn [obind]; try discriminate.
      apply IH.
Qed.

(** C1. Every signature returned by [signBuffer] satisfies
    [isCanonical]. *)
Theorem signBuffer_canonical (E : Collaborators) (fuel : nat) (buf : Buffer.t)
    (private_key : PrivateKey E) (w w' : World E) (sig : Signature) :
  signBuffer E fuel buf private_key w = Returns sig w' ->
  isCanonical sig = true.
Proof.
  unfold signBuffer.
  destruct (signBufferSha256 E fuel (JsBuffer (sha256 E buf)) private_key w)
    as [sig1 w1| |]; cbn [obind]; try discriminate.
  apply canonical_loop_returns.
Qed.

(** With [context_engine] the first candidate is rejected by
    [isCanonical] and the second one is returned. *)
Lemma signBuffer_canonical_witness :
  signBuffer context_engine 3 [] 7 0%nat
  = Returns (mkSignature (2 ^ 248) (2 ^ 248 + 7) 32) 2%nat
  /\ isCanonical (mkSignature (2 ^ 248) (2 ^ 248 + 7) 32) = true.
Proof.
  assert (H : signBuffer context_engine 3 [] 7 0%nat
              = Returns (mkSignature (2 ^ 248) (2 ^ 248 + 7) 32) 2%nat)
    by (vm_compute; reflexivity).
  split; [exact H|].
  exact (signBuffer_canonical context_engine 3 [] 7 0%nat 2%nat
           (mkSignature (2 ^ 248) (2 ^ 248 + 7) 32) H).
Defined.

(** An engine that answers the same arguments with the same candidate
    keeps [signBuffer] in its retry loop once that candidate is not
    canonical: every turn signs again from nonce 0. *)
Lemma signBuffer_same_candidate_loops (fuel : nat) :
  signBuffer constant_engine fuel [] 7 tt = OutOfFuel.
Proof.
  destruct fuel as [|fuel]; [reflexivity|].
  unfold signBuffer.
  assert (Hsign : forall f : nat,
             signBufferSha256 constant_engine (S f)
               (JsBuffer (sha256 constant_engine [])) 7 tt
             = Returns (mkSignature (2 ^ 255) (2 ^ 248 + 7) 32) tt)
    by (intros f; vm_compute; reflexivity).
  rewrite Hsign. cbn [obind].
  generalize (S fuel) at 2. intros outer.
  induction outer as [|outer IH].
  - vm_compute. reflexivity.
  - cbn [canonical_loop].
    replace (isCanonical (mkSignature (2 ^ 255) (2 ^ 248 + 7) 32)) with false
      by (vm_compute; reflexivity).
    rewrite Hsign. cbn [obind]. exact IH.
Qed.

(** ** Claims on input checks *)

(** C8. The operations that take a hash reject a wrong size at once.
    [signBufferSha256] throws its "32 byte buffer" error (the InputError
    of the specification) on every argument that is not a Buffer of 32
    bytes, whatever the fuel, so before any call of [sign]; on a 32-byte
    Buffer it does not throw and runs the nonce loop; [signBuffer] passes
    the error on without entering its retry loop. [verifyHash] and
    [verifyHashV2] fail their length assertion on every hash whose
    length is not 32. *)
Theorem wrong_size_rejected (E : Collaborators) :
  (forall (fuel : nat) (arg : js_bytes) (private_key : PrivateKey E)
          (w : World E),
     ~ (exists b : Buffer.t, arg = JsBuffer b /\ Buffer.length b = 32) ->
     signBufferSha256 E fuel arg private_key w
     = Raises (Error "buf_sha256: 32 byte buffer requred"))
  /\ (forall (fuel : nat) (b : Buffer.t) (private_key : PrivateKey E)
             (w : World E) (x : exn),
        Buffer.length b = 32 ->
        signBufferSha256 E fuel (JsBuffer b) private_key w <> Raises x)
  /\ (forall (fuel : nat) (buf : Buffer.t) (private_key : PrivateKey E)
             (w : World E),
        Buffer.length (sha256 E buf) <> 32 ->
        signBuffer E fuel buf private_key w
        = Raises (Error "buf_sha256: 32 byte buffer requred"))
  /\ (forall (sig : Signature) (hash : Buffer.t) (public_key : PublicKey E),
        Buffer.length hash <> 32 ->
        verifyHash E sig hash public_key
        = Throw (AssertionError (sha256_length_message (Buffer.length hash))))
  /\ (forall (sig : Signature) (hash : Buffer.t) (public_key : PublicKey E),
        Buffer.length hash <> 32 ->
        verifyHashV2 E sig hash public_key
        = Throw (AssertionError (sha256_length_message (Buffer.length hash)))).
Proof.
  assert (Hsign : forall (fuel : nat) (arg : js_bytes)
                         (private_key : PrivateKey E) (w : World E),
             ~ (exists b : Buffer.t,
                  arg = JsBuffer b /\ Buffer.length b = 32) ->
             signBufferSha256 E fuel arg private_key w
             = Raises (Error "buf_sha256: 32 byte buffer requred")).
  { intros fuel arg private_key w Hbad. unfold signBufferSha256.
    destruct arg as [b|str]; cbn [js_length Buffer_isBuffer negb].
    - destruct (Z.eqb_spec (Buffer.length b) 32) as [Hlen|Hlen];
        [|reflexivity].
      exfalso. apply Hbad. exists b. split; [reflexivity|exact Hlen].
    - rewrite orb_true_r. reflexivity. }
  split; [exact Hsign|]. split; [|split; [|split]].
  - intros fuel b private_key w x Hlen.
    rewrite signBufferSha256_proceeds by exact Hlen.
    destruct (nonce_loop E fuel b (BigInteger.fromBuffer b) private_key 0 w)
      as [[c hdr] w1|y|] eqn:Hloop; cbn [obind]; try discriminate.
    exfalso. exact (nonce_loop_no_throw E b private_key fuel 0 w y Hloop).
  - intros fuel buf private_key w Hlen. unfold signBuffer.
    rewrite Hsign; [reflexivity|].
    intros (b & [= <-] & Hb). contradiction.
  - intros sig hash public_key Hlen. unfold verifyHash, assert_equal.
    destruct (Z.eqb_spec (Buffer.length hash) 32); [contradiction|reflexivity].
  - intros sig hash public_key Hlen. unfold verifyHashV2, assert_equal.
    destruct (Z.eqb_spec (Buffer.length hash) 32); [contradiction|reflexivity].
Qed.

Lemma wrong_size_rejected_witness :
  signBufferSha256 nonce_engine 0 (JsBuffer short_hash) 7 0%nat
  = Raises (Error "buf_sha256: 32 byte buffer requred")
  /\ signBufferSha256 nonce_engine 5
       (JsString "0123456789abcdef0123456789abcdef") 7 0%nat
     = Raises (Error "buf_sha256: 32 byte buffer requred")
  /\ signBufferSha256 nonce_engine 5 (JsBuffer sample_hash) 7 0%nat
     <> Raises (Error "buf_sha256: 32 byte buffer requred")
  /\ verifyHash nonce_engine sample_signature short_hash 7
     = Throw (AssertionError
                "A SHA 256 should be 32 bytes long, instead got 31")
  /\ verifyHashV2 nonce_engine sample_signature short_hash 7
     = Throw (AssertionError
                "A SHA 256 should be 32 bytes long, instead got 31").
Proof.
  destruct (wrong_size_rejected nonce_engine)
    as (Hsign & Hgo & _ & Hv1 & Hv2).
  split; [|split; [|split; [|split]]].
  - apply Hsign. intros (b & [= <-] & Hb). vm_compute in Hb. discriminate.
  - apply Hsign. intros (b & Hb & _). discriminate.
  - apply Hgo. reflexivity.
  - apply (Hv1 sample_signature short_hash 7). vm_compute. discriminate.
  - apply (Hv2 sample_signature short_hash 7). vm_compute. discriminate.
Defined.

(** ** The two verifiers *)

(** On a signature of the data model both verifiers hand the same
    [(r, s)] to their primitive: [verifyHash] as numbers, [verifyHashV2]
    as the 64 bytes [r || s]. Whether the primitives then agree is
    not decided by this class. *)
Lemma verifiers_same_payload (E : Collaborators) (sig : Signature)
    (hash : Buffer.t) (public_key : PublicKey E) :
  Buffer.length hash = 32 ->
  0 <= r sig < 2 ^ 256 ->
  0 <= s sig < 2 ^ 256 ->
  0 <= i sig <= 255 ->
  verifyHash E sig hash public_key
  = Ok (verify E (secp256k1 E) hash (r sig, s sig) (Q E public_key))
  /\ verifyHashV2 E sig hash public_key
     = Ok (secp256k1Lib_verify E hash
             (BigInteger.be_bytes 32 (r sig) ++ BigInteger.be_bytes 32 (s sig))
             (PublicKey_toBuffer E public_key)).
Proof.
  intros Hlen Hr Hs Hi. unfold verifyHash, verifyHashV2, assert_equal.
  rewrite Hlen. cbn [Z.eqb Pos.eqb rbind]. split; [reflexivity|].
  rewrite toBuffer_layout by assumption. reflexivity.
Qed.

(** Outside the data model they differ already in this class: a header
    that is not a byte makes [verifyHashV2] throw while [verifyHash]
    answers. *)
Lemma verifyHashV2_needs_byte_header :
  verifyHashV2 nonce_engine (mkSignature (2 ^ 248) (2 ^ 248) 256)
    sample_hash 7
  = Throw (RangeError "value is out of bounds")
  /\ verifyHash nonce_engine (mkSignature (2 ^ 248) (2 ^ 248) 256)
       sample_hash 7
     = Ok true.
Proof. split; vm_compute; reflexivity. Qed.

(** * Further properties of the class *)

(** ** What a decoded signature looks like *)

Lemma fromBuffer_inv (b : Buffer.t) (sig : Signature) :
  fromBuffer b = Ok sig ->
  exists (hd : byte) (rest : Buffer.t),
    b = hd :: rest
    /\ List.length rest = 64%nat
    /\ 27 <= byte_val hd <= 34
    /\ sig = mkSignature (BigInteger.fromBuffer (firstn 32 rest))
               (BigInteger.fromBuffer (skipn 32 rest)) (byte_val hd).
Proof.
  unfold fromBuffer, assert_equal.
  destruct (Z.eqb_spec (Buffer.length b) 65) as [Hlen|Hlen]; [|discriminate].
  destruct b as [|hd rest]; [discriminate|].
  cbn [rbind Buffer.readUInt8 nth_error].
  destruct (byte_val hd - 27 =? Z.land (byte_val hd - 27) 7) eqn:Htest;
    [|discriminate].
  cbn [rbind]. intros [= <-]. exists hd, rest.
  unfold Buffer.length in Hlen. cbn [List.length] in Hlen.
  repeat split; try lia; apply header_test; exact Htest.
Qed.

(** X1. Whatever [fromBuffer] returns lies in the data model: [r] and
    [s] are non-negative and below 2^256, the header is the byte 0 of
    the buffer and lies in [27, 34], and the buffer had 65 bytes. *)
Theorem fromBuffer_in_range (b : Buffer.t) (sig : Signature) :
  fromBuffer b = Ok sig ->
  Buffer.length b = 65
  /\ Buffer.get b 0 = Some (i sig)
  /\ 27 <= i sig <= 34
  /\ 0 <= r sig < 2 ^ 256
  /\ 0 <= s sig < 2 ^ 256.
Proof.
  intros Hdec.
  destruct (fromBuffer_inv b sig Hdec) as (hd & rest & -> & Hlen & Hh & ->).
  cbn [r s i].
  pose proof (BigIntegerFacts.fromBuffer_range (firstn 32 rest)) as Hr.
  pose proof (BigIntegerFacts.fromBuffer_range (skipn 32 rest)) as Hs.
  rewrite length_firstn in Hr. rewrite length_skipn in Hs.
  replace (Nat.min 32 (List.length rest)) with 32%nat in Hr by lia.
  replace (List.length rest - 32)%nat with 32%nat in Hs by lia.
  rewrite ToBufferFacts.pow256_32 in Hr, Hs.
  unfold Buffer.length. cbn [List.length]. rewrite Hlen.
  repeat split; try lia.
Qed.

Lemma fromBuffer_in_range_witness :
  fromBuffer sample_buffer = Ok sample_signature
  /\ Buffer.length sample_buffer = 65
  /\ Buffer.get sample_buffer 0 = Some (i sample_signature)
  /\ 27 <= i sample_signature <= 34
  /\ 0 <= r sample_signature < 2 ^ 256
  /\ 0 <= s sample_signature < 2 ^ 256.
Proof.
  assert (H : fromBuffer sample_buffer = Ok sample_signature)
    by (vm_compute; reflexivity).
  split; [exact H|].
  exact (fromBuffer_in_range sample_buffer sample_signature H).
Defined.

(** X2. [fromBuffer] is injective: two buffers that decode to the same
    signature are the same buffer. *)
Theorem fromBuffer_injective (b1 b2 : Buffer.t) (sig : Signature) :
  fromBuffer b1 = Ok sig -> fromBuffer b2 = Ok sig -> b1 = b2.
Proof.
  intros H1 H2.
  destruct (fromBuffer_inv b1 sig H1) as (h1 & t1 & -> & L1 & _ & E1).
  destruct (fromBuffer_inv b2 sig H2) as (h2 & t2 & -> & L2 & _ & E2).
  rewrite E1 in E2.
  pose proof (f_equal r E2) as Er. pose proof (f_equal s E2) as Es.
  pose proof (f_equal i E2) as Ei. cbn [r s i] in Er, Es, Ei.
  assert (Hh : h1 = h2).
  { rewrite <- (byte_of_Z_val h1), <- (byte_of_Z_val h2), Ei. reflexivity. }
  assert (Hf : firstn 32 t1 = firstn 32 t2).
  { rewrite <- (BigIntegerFacts.be_bytes_fromBuffer_len 32 (firstn 32 t1))
      by (rewrite length_firstn; lia).
    rewrite <- (BigIntegerFacts.be_bytes_fromBuffer_len 32 (firstn 32 t2))
      by (rewrite length_firstn; lia).
    rewrite Er. reflexivity. }
  assert (Hs : skipn 32 t1 = skipn 32 t2).
  { rewrite <- (BigIntegerFacts.be_bytes_fromBuffer_len 32 (skipn 32 t1))
      by (rewrite length_skipn; lia).
    rewrite <- (BigIntegerFacts.be_bytes_fromBuffer_len 32 (skipn 32 t2))
      by (rewrite length_skipn; lia).
    rewrite Es. reflexivity. }
  rewrite Hh. f_equal.
  rewrite <- (firstn_skipn 32 t1), <- (firstn_skipn 32 t2), Hf, Hs.
  reflexivity.
Qed.

Lemma fromBuffer_injective_witness :
  fromBuffer sample_buffer = Ok sample_signature
  /\ sample_buffer = sample_buffer.
Proof.
  assert (H : fromBuffer sample_buffer = Ok sample_signature)
    by (vm_compute; reflexivity).
  split; [exact H|].
  exact (fromBuffer_injective sample_buffer sample_buffer sample_signature
           H H).
Defined.

(** ** [toBuffer] outside the data model *)

Lemma copy_length (source target : Buffer.t) (targetStart : nat) :
  (targetStart <= List.length target)%nat ->
  List.length (Buffer.copy source target targetStart) = List.length target.
Proof.
  intros Hin. unfold Buffer.copy.
  rewrite !length_app, length_skipn, !length_firstn. lia.
Qed.

(** The general layout of [toBuffer]: the header, then the first 32
    bytes of [r.toBuffer(32)], then the first 32 bytes of
    [s.toBuffer(32)]. *)
Lemma toBuffer_layout_any (sig : Signature) :
  0 <= i sig <= 255 ->
  toBuffer sig
  = Ok (byte_of_Z (i sig) :: firstn 32 (BigInteger.toBuffer (r sig) 32)
          ++ firstn 32 (BigInteger.toBuffer (s sig) 32)).
Proof.
  intros Hi. unfold toBuffer, Buffer.writeUInt8.
  destruct (Z.ltb_spec (i sig) 0); [lia|].
  destruct (Z.ltb_spec 255 (i sig)); [lia|].
  cbn [orb]. change (List.length (Buffer.alloc 65) <=? 0)%nat with false.
  cbn [rbind]. f_equal.
  pose proof (ToBufferFacts.toBuffer_length_ge 32 (r sig)) as HR.
  pose proof (ToBufferFacts.toBuffer_length_ge 32 (s sig)) as HS.
  set (R := BigInteger.toBuffer (r sig) 32) in *.
  set (S := BigInteger.toBuffer (s sig) 32) in *.
  change (firstn 0 (Buffer.alloc 65) ++
          byte_of_Z (i sig) :: skipn 1 (Buffer.alloc 65))
    with (byte_of_Z (i sig) :: repeat x00 64).
  set (h := byte_of_Z (i sig)).
  assert (H1 : exists tail : Buffer.t,
             Buffer.copy R (h :: repeat x00 64) 1
             = h :: firstn 32 R ++ tail
             /\ List.length tail = 32%nat).
  { unfold Buffer.copy.
    change (List.length (h :: repeat x00 64) - 1)%nat with 64%nat.
    change (firstn 1 (h :: repeat x00 64)) with [h].
    exists (skipn 32 (firstn 64 R
                        ++ skipn (1 + List.length (firstn 64 R))
                             (h :: repeat x00 64))).
    split.
    - cbn [app]. f_equal.
      rewrite <- (firstn_skipn 32
                    (firstn 64 R ++ skipn (1 + List.length (firstn 64 R))
                                      (h :: repeat x00 64))) at 1.
      f_equal. rewrite firstn_app, firstn_firstn.
      replace (32 - List.length (firstn 64 R))%nat with 0%nat
        by (rewrite length_firstn; lia).
      rewrite firstn_O, app_nil_r. reflexivity.
    - rewrite length_skipn, length_app, length_skipn, length_firstn.
      cbn [List.length]. rewrite repeat_length. lia. }
  destruct H1 as (tail & -> & Htail).
  unfold Buffer.copy.
  assert (Hlen : List.length (h :: firstn 32 R ++ tail) = 65%nat).
  { cbn [List.length]. rewrite length_app, length_firstn. lia. }
  rewrite Hlen. change (65 - 33)%nat with 32%nat.
  assert (Hw : List.length (firstn 32 S) = 32%nat)
    by (rewrite length_firstn; lia).
  rewrite Hw. change (33 + 32)%nat with 65%nat.
  rewrite skipn_all2 by lia. rewrite app_nil_r.
  change (firstn 33 (h :: firstn 32 R ++ tail))
    with (h :: firstn 32 (firstn 32 R ++ tail)).
  rewrite firstn_app, firstn_firstn.
  replace (32 - List.length (firstn 32 R))%nat with 0%nat
    by (rewrite length_firstn; lia).
  rewrite firstn_O, app_nil_r. reflexivity.
Qed.

(** X3. [toBuffer] depends on the header alone for its success: it
    throws exactly when the header is not in 0 .. 255, and otherwise
    returns 65 bytes whatever [r] and [s] are, with the header in byte
    0 and, of a number too long for 32 bytes, the 32 leading bytes. *)
Theorem toBuffer_total_on_byte_header (sig : Signature) :
  (0 <= i sig <= 255 ->
   exists buf : Buffer.t,
     toBuffer sig = Ok buf
     /\ Buffer.length buf = 65
     /\ Buffer.get buf 0 = Some (i sig)
     /\ Buffer.slice buf 1 33 = firstn 32 (BigInteger.toBuffer (r sig) 32)
     /\ Buffer.slice_from buf 33
        = firstn 32 (BigInteger.toBuffer (s sig) 32))
  /\ (~ 0 <= i sig <= 255 ->
      toBuffer sig = Throw (RangeError "value is out of bounds")).
Proof.
  split.
  - intros Hi. eexists. split; [apply toBuffer_layout_any; exact Hi|].
    pose proof (ToBufferFacts.toBuffer_length_ge 32 (r sig)) as HR.
    pose proof (ToBufferFacts.toBuffer_length_ge 32 (s sig)) as HS.
    assert (HlR : List.length (firstn 32 (BigInteger.toBuffer (r sig) 32))
                  = 32%nat) by (rewrite length_firstn; lia).
    assert (HlS : List.length (firstn 32 (BigInteger.toBuffer (s sig) 32))
                  = 32%nat) by (rewrite length_firstn; lia).
    rewrite BufferFacts.slice_r, BufferFacts.slice_s by assumption.
    rewrite BufferFacts.get_head, byte_val_of_Z, Z.mod_small by lia.
    unfold Buffer.length. cbn [List.length]. rewrite length_app, HlR, HlS.
    repeat split; reflexivity.
  - intros Hi. apply toBuffer_header_range. lia.
Qed.

Lemma toBuffer_total_on_byte_header_witness :
  (exists buf : Buffer.t,
     toBuffer (mkSignature (2 ^ 300) 5 31) = Ok buf
     /\ Buffer.length buf = 65
     /\ Buffer.get buf 0 = Some 31
     /\ Buffer.slice buf 1 33 = firstn 32 (BigInteger.toBuffer (2 ^ 300) 32)
     /\ Buffer.slice_from buf 33 = firstn 32 (BigInteger.toBuffer 5 32))
  /\ toBuffer (mkSignature 1 1 256)
     = Throw (RangeError "value is out of bounds").
Proof.
  split.
  - apply (proj1 (toBuffer_total_on_byte_header
                    (mkSignature (2 ^ 300) 5 31))). cbn. lia.
  - apply (proj2 (toBuffer_total_on_byte_header (mkSignature 1 1 256))).
    cbn. lia.
Defined.

(** ** Canonical signatures as a range *)

(** X4. For [r] and [s] that fit 32 bytes, [isCanonical] holds exactly
    when both lie between 2^247 (included) and 2^255 (excluded). *)
Theorem isCanonical_iff_range (sig : Signature) :
  0 <= r sig < 2 ^ 256 ->
  0 <= s sig < 2 ^ 256 ->
  (isCanonical sig = true
   <-> 2 ^ 247 <= r sig < 2 ^ 255 /\ 2 ^ 247 <= s sig < 2 ^ 255).
Proof.
  intros Hr Hs. unfold isCanonical.
  rewrite !ToBufferFacts.toBuffer_32 by assumption.
  rewrite <- (spec_canonical_int_range (r sig) Hr).
  rewrite <- (spec_canonical_int_range (s sig) Hs).
  rewrite <- (canonical_cells (r sig)), <- (canonical_cells (s sig)).
  rewrite <- andb_assoc. rewrite !andb_true_iff. tauto.
Qed.

Lemma isCanonical_iff_range_witness :
  0 <= r sample_signature < 2 ^ 256
  /\ 0 <= s sample_signature < 2 ^ 256
  /\ (isCanonical sample_signature = true
      <-> 2 ^ 247 <= r sample_signature < 2 ^ 255
          /\ 2 ^ 247 <= s sample_signature < 2 ^ 255).
Proof.
  assert (Hr : 0 <= r sample_signature < 2 ^ 256) by (cbn; lia).
  assert (Hs : 0 <= s sample_signature < 2 ^ 256) by (cbn; lia).
  split; [exact Hr|]. split; [exact Hs|].
  exact (isCanonical_iff_range sample_signature Hr Hs).
Defined.

(** ** Verification and the header *)

(** X5. [verifyHashV2] strips the header before it calls the native
    verifier, yet it needs a header it can write: with a header that is
    not a byte it throws where [verifyHash] answers, and with any two
    byte headers on the same [r] and [s] it gives the same answer. *)
Theorem verifyHashV2_header (E : Collaborators) (sig1 sig2 : Signature)
    (hash : Buffer.t) (public_key : PublicKey E) :
  Buffer.length hash = 32 ->
  r sig1 = r sig2 ->
  s sig1 = s sig2 ->
  0 <= i sig1 <= 255 ->
  (0 <= i sig2 <= 255 ->
   verifyHashV2 E sig1 hash public_key = verifyHashV2 E sig2 hash public_key)
  /\ (~ 0 <= i sig2 <= 255 ->
      verifyHashV2 E sig2 hash public_key
      = Throw (RangeError "value is out of bounds")
      /\ verifyHash E sig2 hash public_key
         = verifyHash E sig1 hash public_key
      /\ exists answer : bool,
           verifyHash E sig2 hash public_key = Ok answer).
Proof.
  intros Hlen Hr Hs Hi1.
  unfold verifyHashV2, verifyHash, assert_equal.
  rewrite Hlen. cbn [Z.eqb Pos.eqb rbind]. split.
  - intros Hi2. rewrite !toBuffer_layout_any by assumption.
    cbn [rbind]. unfold Buffer.slice_from. cbn [skipn].
    rewrite Hr, Hs. reflexivity.
  - intros Hi2. rewrite (toBuffer_header_range sig2) by lia.
    cbn [rbind]. rewrite Hr, Hs.
    split; [reflexivity|]. split; [reflexivity|]. eexists. reflexivity.
Qed.

Lemma verifyHashV2_header_witness :
  (verifyHashV2 nonce_engine (mkSignature (2 ^ 248) (2 ^ 248) 27)
     sample_hash 7
   = verifyHashV2 nonce_engine (mkSignature (2 ^ 248) (2 ^ 248) 200)
       sample_hash 7)
  /\ verifyHashV2 nonce_engine (mkSignature (2 ^ 248) (2 ^ 248) 256)
       sample_hash 7
     = Throw (RangeError "value is out of bounds")
  /\ exists answer : bool,
       verifyHash nonce_engine (mkSignature (2 ^ 248) (2 ^ 248) 256)
         sample_hash 7 = Ok answer.
Proof.
  assert (Hlen : Buffer.length sample_hash = 32) by reflexivity.
  assert (Hi : 0 <= 27 <= 255) by lia.
  split.
  - apply (proj1 (verifyHashV2_header nonce_engine
                    (mkSignature (2 ^ 248) (2 ^ 248) 27)
                    (mkSignature (2 ^ 248) (2 ^ 248) 200)
                    sample_hash 7 Hlen eq_refl eq_refl Hi)).
    cbn. lia.
  - destruct (proj2 (verifyHashV2_header nonce_engine
                       (mkSignature (2 ^ 248) (2 ^ 248) 27)
                       (mkSignature (2 ^ 248) (2 ^ 248) 256)
                       sample_hash 7 Hlen eq_refl eq_refl Hi))
      as (Hthrow & _ & Hans); [cbn; lia|].
    split; [exact Hthrow|exact Hans].
Defined.

(** ** What [signBuffer] returns *)

Lemma bounded_search (P : nat -> bool) (n : nat) :
  (exists j : nat, (j < n)%nat /\ P j = true)
  \/ (forall j : nat, (j < n)%nat -> P j = false).
Proof.
  induction n as [|n [(j & Hj & Hp)|Hall]].
  - right. intros j Hj. lia.
  - left. exists j. split; [lia|exact Hp].
  - destruct (P n) eqn:Hpn.
    + left. exists n. split; [lia|exact Hpn].
    + right. intros j Hj.
      destruct (Nat.eq_dec j n) as [->|Hne]; [exact Hpn|apply Hall; lia].
Qed.

(** A run of [signBufferSha256] that returns has stopped at the least
    accepted nonce. *)
Lemma signBufferSha256_inv (E : Collaborators) (fuel : nat) (hash : Buffer.t)
    (private_key : PrivateKey E) (w w' : World E) (sig : Signature) :
  signBufferSha256 E fuel (JsBuffer hash) private_key w = Returns sig w' ->
  exists m : nat,
    lengthCanonical E (candidate E hash private_key w m) = true
    /\ (forall j : nat,
          (j < m)%nat ->
          lengthCanonical E (candidate E hash private_key w j) = false)
    /\ sig = signature_of E hash private_key (candidate E hash private_key w m)
    /\ w' = world_at E hash private_key w (S m).
Proof.
  intros Hret.
  destruct (signBufferSha256_returns E fuel (JsBuffer hash) private_key w w'
              sig Hret) as (buf & _ & [= <-] & Hlen & _).
  rewrite signBufferSha256_proceeds in Hret by exact Hlen.
  change 0 with (Z.of_nat 0) in Hret.
  change w with (world_at E hash private_key w 0) in Hret at 1.
  destruct (bounded_search
              (fun k => lengthCanonical E (candidate E hash private_key w k))
              fuel) as [(j & Hj & Hacc)|Hnone].
  - destruct (least_true
                (fun k => lengthCanonical E (candidate E hash private_key w k))
                j Hacc) as (m & Hmj & Hm & Hleast).
    exists m. split; [exact Hm|]. split; [exact Hleast|].
    rewrite (nonce_loop_finds E hash private_key w m Hm m 0 fuel) in Hret;
      [|lia|intros k Hk; apply Hleast; lia|lia].
    cbn [obind] in Hret. injection Hret as <- <-.
    split; reflexivity.
  - rewrite nonce_loop_starves in Hret; [discriminate|].
    intros k Hk. apply Hnone. lia.
Qed.

Lemma candidate_from_sign (E : Collaborators) (hash : Buffer.t)
    (private_key : PrivateKey E) (w : World E) (n : nat) :
  exists (nonce : Z) (w1 : World E),
    candidate E hash private_key w n
    = fst (sign E (secp256k1 E) hash (d E private_key) nonce w1).
Proof. unfold candidate. eauto. Qed.

(** The retry loop returns the signature it was entered with or one
    that [signBufferSha256] returned on the same hash. *)
Lemma canonical_loop_origin (E : Collaborators) (inner fuel : nat)
    (_hash : Buffer.t) (private_key : PrivateKey E)
    (signature sig : Signature) (w w' : World E) :
  canonical_loop E inner fuel _hash private_key signature w = Returns sig w' ->
  (sig = signature /\ w' = w)
  \/ exists w1 : World E,
       signBufferSha256 E inner (JsBuffer _hash) private_key w1
       = Returns sig w'.
Proof.
  revert signature w. induction fuel as [|fuel IH]; intros signature w;
    cbn [canonical_loop]; destruct (isCanonical signature).
  - intros [= <- <-]. left. split; reflexivity.
  - discriminate.
  - intros [= <- <-]. left. split; reflexivity.
  - destruct (signBufferSha256 E inner (JsBuffer _hash) private_key w)
      as [sig1 w1| |] eqn:Hsign; cbn [obind]; try discriminate.
    intros Hloop. destruct (IH sig1 w1 Hloop) as [[-> ->]|Hlater].
    + right. exists w. exact Hsign.
    + right. exact Hlater.
Qed.

Lemma signBuffer_origin (E : Collaborators) (fuel : nat) (buf : Buffer.t)
    (private_key : PrivateKey E) (w w' : World E) (sig : Signature) :
  signBuffer E fuel buf private_key w = Returns sig w' ->
  exists w1 : World E,
    signBufferSha256 E fuel (JsBuffer (sha256 E buf)) private_key w1
    = Returns sig w'.
Proof.
  unfold signBuffer.
  destruct (signBufferSha256 E fuel (JsBuffer (sha256 E buf)) private_key w)
    as [sig1 w1| |] eqn:Hsign; cbn [obind]; try discriminate.
  intros Hloop.
  destruct (canonical_loop_origin E fuel fuel (sha256 E buf) private_key
              sig1 sig w1 w' Hloop) as [[-> ->]|Hlater].
  - exists w. exact Hsign.
  - exact Hlater.
Qed.

(** The wire round trip, for use below. *)
Lemma toBuffer_then_fromBuffer (sig : Signature) :
  27 <= i sig <= 34 ->
  0 <= r sig < 2 ^ 256 ->
  0 <= s sig < 2 ^ 256 ->
  toBuffer sig
  = Ok (byte_of_Z (i sig) :: BigInteger.be_bytes 32 (r sig)
          ++ BigInteger.be_bytes 32 (s sig))
  /\ fromBuffer (byte_of_Z (i sig) :: BigInteger.be_bytes 32 (r sig)
                   ++ BigInteger.be_bytes 32 (s sig))
     = Ok sig.
Proof.
  intros Hi Hr Hs. split; [apply toBuffer_layout; lia|].
  assert (Hlr : List.length (BigInteger.be_bytes 32 (r sig)) = 32%nat)
    by apply BigIntegerFacts.be_bytes_length.
  assert (Hls : List.length (BigInteger.be_bytes 32 (s sig)) = 32%nat)
    by apply BigIntegerFacts.be_bytes_length.
  assert (Hv : byte_val (byte_of_Z (i sig)) = i sig)
    by (rewrite byte_val_of_Z; apply Z.mod_small; lia).
  rewrite fromBuffer_ok.
  - rewrite Hv.
    rewrite firstn_app, Hlr, Nat.sub_diag, firstn_O, app_nil_r.
    rewrite firstn_all2 by lia.
    rewrite skipn_app, Hlr, Nat.sub_diag, skipn_all2 by lia.
    cbn [skipn app].
    rewrite !BigIntegerFacts.fromBuffer_be_bytes_small
      by (rewrite ToBufferFacts.pow256_32; assumption).
    destruct sig; reflexivity.
  - rewrite length_app, Hlr, Hls. reflexivity.
  - rewrite Hv. exact Hi.
Qed.

(** X6. With an engine in range, a signature returned by [signBuffer]
    is fit for the wire: its header lies in [31, 34], [r] and [s] lie
    between 2^247 and 2^255, [toBuffer] gives 65 bytes and [fromBuffer]
    gives the signature back from them. *)
Theorem signBuffer_fit_for_wire (E : Collaborators) (fuel : nat)
    (buf : Buffer.t) (private_key : PrivateKey E) (w w' : World E)
    (sig : Signature) :
  engine_in_range E ->
  signBuffer E fuel buf private_key w = Returns sig w' ->
  31 <= i sig <= 34
  /\ 2 ^ 247 <= r sig < 2 ^ 255
  /\ 2 ^ 247 <= s sig < 2 ^ 255
  /\ exists b : Buffer.t,
       toBuffer sig = Ok b /\ Buffer.length b = 65 /\ fromBuffer b = Ok sig.
Proof.
  intros [Hrs Hcalc] Hret.
  pose proof (canonical_loop_returns E) as Hcanon.
  assert (Hc : isCanonical sig = true).
  { revert Hret. unfold signBuffer.
    destruct (signBufferSha256 E fuel (JsBuffer (sha256 E buf)) private_key w)
      as [sig1 w1| |]; cbn [obind]; try discriminate.
    apply Hcanon. }
  destruct (signBuffer_origin E fuel buf private_key w w' sig Hret)
    as (w1 & Hsign).
  destruct (signBufferSha256_inv E fuel (sha256 E buf) private_key w1 w' sig
              Hsign) as (m & _ & _ & Hsig & _).
  destruct (candidate_from_sign E (sha256 E buf) private_key w1 m)
    as (nonce & w2 & Hcand).
  assert (Hr : 0 <= r sig < 2 ^ 256).
  { rewrite Hsig. cbn [signature_of r]. rewrite Hcand. apply Hrs. }
  assert (Hs : 0 <= s sig < 2 ^ 256).
  { rewrite Hsig. cbn [signature_of s]. rewrite Hcand. apply Hrs. }
  assert (Hi : 31 <= i sig <= 34).
  { rewrite Hsig. cbn [signature_of i].
    pose proof (Hcalc (secp256k1 E) (BigInteger.fromBuffer (sha256 E buf))
                  (candidate E (sha256 E buf) private_key w1 m)
                  (Q E (toPublicKey E private_key))). lia. }
  apply (isCanonical_range sig Hr Hs) in Hc. destruct Hc as [Hr' Hs'].
  split; [exact Hi|]. split; [exact Hr'|]. split; [exact Hs'|].
  destruct (toBuffer_then_fromBuffer sig ltac:(lia) Hr Hs) as [Henc Hdec].
  eexists. split; [exact Henc|]. split; [|exact Hdec].
  unfold Buffer.length. cbn [List.length].
  rewrite length_app, !BigIntegerFacts.be_bytes_length. reflexivity.
Qed.

Lemma bounded_engine_in_range : engine_in_range bounded_engine.
Proof.
  split.
  - intros c buf k nonce w. cbn [sign bounded_engine fst ECSignature.r
                                  ECSignature.s].
    pose proof (Z.mod_pos_bound k (2 ^ 200) ltac:(lia)).
    destruct (w =? 0)%nat; lia.
  - intros c e ecsignature P. cbn [calcPubKeyRecoveryParam bounded_engine].
    pose proof (Z.mod_pos_bound e 4 ltac:(lia)). lia.
Qed.

Lemma signBuffer_fit_for_wire_witness :
  engine_in_range bounded_engine
  /\ signBuffer bounded_engine 3 [] 7 0%nat
     = Returns (mkSignature (2 ^ 248) (2 ^ 248 + 7) 32) 2%nat
  /\ 31 <= 32 <= 34
  /\ 2 ^ 247 <= 2 ^ 248 < 2 ^ 255
  /\ 2 ^ 247 <= 2 ^ 248 + 7 < 2 ^ 255
  /\ exists b : Buffer.t,
       toBuffer (mkSignature (2 ^ 248) (2 ^ 248 + 7) 32) = Ok b
       /\ Buffer.length b = 65
       /\ fromBuffer b = Ok (mkSignature (2 ^ 248) (2 ^ 248 + 7) 32).
Proof.
  assert (H : signBuffer bounded_engine 3 [] 7 0%nat
              = Returns (mkSignature (2 ^ 248) (2 ^ 248 + 7) 32) 2%nat)
    by (vm_compute; reflexivity).
  split; [exact bounded_engine_in_range|]. split; [exact H|].
  exact (signBuffer_fit_for_wire bounded_engine 3 [] 7 0%nat 2%nat
           (mkSignature (2 ^ 248) (2 ^ 248 + 7) 32)
           bounded_engine_in_range H).
Defined.

(** ** [signBuffer] on a context-free engine *)

Lemma candidate_context_free (E : Collaborators) (hash : Buffer.t)
    (private_key : PrivateKey E) (w1 w2 : World E) (n : nat) :
  context_free E ->
  candidate E hash private_key w1 n = candidate E hash private_key w2 n.
Proof. intros Hfree. unfold candidate. apply Hfree. Qed.

(** On a context-free engine every run of [signBufferSha256] on the same
    hash and key that returns, returns the same signature. *)
Lemma signBufferSha256_context_free (E : Collaborators) (f1 f2 : nat)
    (hash : Buffer.t) (private_key : PrivateKey E)
    (w1 w1' w2 w2' : World E) (s1 s2 : Signature) :
  context_free E ->
  signBufferSha256 E f1 (JsBuffer hash) private_key w1 = Returns s1 w1' ->
  signBufferSha256 E f2 (JsBuffer hash) private_key w2 = Returns s2 w2' ->
  s1 = s2.
Proof.
  intros Hfree H1 H2.
  destruct (signBufferSha256_inv E f1 hash private_key w1 w1' s1 H1)
    as (m1 & Ha1 & Hl1 & -> & _).
  destruct (signBufferSha256_inv E f2 hash private_key w2 w2' s2 H2)
    as (m2 & Ha2 & Hl2 & -> & _).
  assert (Hm : m1 = m2).
  { destruct (Nat.lt_trichotomy m1 m2) as [Hlt|[Heq|Hgt]]; [|exact Heq|].
    - specialize (Hl2 m1 Hlt).
      rewrite (candidate_context_free E hash private_key w2 w1 m1 Hfree)
        in Hl2. congruence.
    - specialize (Hl1 m2 Hgt).
      rewrite (candidate_context_free E hash private_key w1 w2 m2 Hfree)
        in Hl1. congruence. }
  subst m2.
  rewrite (candidate_context_free E hash private_key w1 w2 m1 Hfree).
  reflexivity.
Qed.

(** Entered with a signature that is not canonical and that a
    context-free engine gives for this hash, the retry loop never
    returns. *)
Lemma canonical_loop_stuck (E : Collaborators) (f0 inner fuel : nat)
    (_hash : Buffer.t) (private_key : PrivateKey E) (s0 : Signature)
    (w0 w0' w : World E) :
  context_free E ->
  signBufferSha256 E f0 (JsBuffer _hash) private_key w0 = Returns s0 w0' ->
  isCanonical s0 = false ->
  forall (sig : Signature) (w' : World E),
    canonical_loop E inner fuel _hash private_key s0 w <> Returns sig w'.
Proof.
  intros Hfree H0 Hnc. revert w.
  induction fuel as [|fuel IH]; intros w sig w';
    cbn [canonical_loop]; rewrite Hnc; [discriminate|].
  destruct (signBufferSha256 E inner (JsBuffer _hash) private_key w)
    as [s1 w1| |] eqn:Hsign; cbn [obind]; try discriminate.
  rewrite <- (signBufferSha256_context_free E f0 inner _hash private_key
                w0 w0' w w1 s0 s1 Hfree H0 Hsign).
  apply IH.
Qed.

(** X7. On a context-free engine [signBuffer] can only return the
    signature of its first [signBufferSha256] call, and only when that
    one is canonical: every retry starts again from nonce 0 and gets the
    same candidate, so with a first signature that is not canonical
    [signBuffer] never returns. *)
Theorem signBuffer_context_free (E : Collaborators) (fuel0 fuel : nat)
    (buf : Buffer.t) (private_key : PrivateKey E) (w w1 w' : World E)
    (first sig : Signature) :
  context_free E ->
  signBufferSha256 E fuel0 (JsBuffer (sha256 E buf)) private_key w
  = Returns first w1 ->
  signBuffer E fuel buf private_key w = Returns sig w' ->
  sig = first /\ isCanonical first = true.
Proof.
  intros Hfree Hfirst. unfold signBuffer.
  destruct (signBufferSha256 E fuel (JsBuffer (sha256 E buf)) private_key w)
    as [s1 w2| |] eqn:Hsign; cbn [obind]; try discriminate.
  assert (Hs : first = s1)
    by exact (signBufferSha256_context_free E fuel0 fuel (sha256 E buf)
                private_key w w1 w w2 first s1 Hfree Hfirst Hsign).
  subst s1. intros Hloop.
  destruct (isCanonical first) eqn:Hc.
  - split; [|reflexivity].
    destruct fuel; cbn [canonical_loop] in Hloop; rewrite Hc in Hloop;
      injection Hloop as <- _; reflexivity.
  - exfalso.
    exact (canonical_loop_stuck E fuel0 fuel fuel (sha256 E buf) private_key
             first w w1 w2 Hfree Hfirst Hc sig w' Hloop).
Qed.

Lemma nonce_engine_context_free : context_free nonce_engine.
Proof. intros c buf k nonce w1 w2. reflexivity. Qed.

Lemma signBuffer_context_free_witness :
  context_free nonce_engine
  /\ signBufferSha256 nonce_engine 3 (JsBuffer (sha256 nonce_engine [])) 7
       0%nat
     = Returns (mkSignature (256 ^ 31) (2 ^ 248 + 7) 32) 3%nat
  /\ signBuffer nonce_engine 5 [] 7 0%nat
     = Returns (mkSignature (256 ^ 31) (2 ^ 248 + 7) 32) 3%nat
  /\ mkSignature (256 ^ 31) (2 ^ 248 + 7) 32
     = mkSignature (256 ^ 31) (2 ^ 248 + 7) 32
  /\ isCanonical (mkSignature (256 ^ 31) (2 ^ 248 + 7) 32) = true.
Proof.
  assert (H1 : signBufferSha256 nonce_engine 3
                 (JsBuffer (sha256 nonce_engine [])) 7 0%nat
               = Returns (mkSignature (256 ^ 31) (2 ^ 248 + 7) 32) 3%nat)
    by (vm_compute; reflexivity).
  assert (H2 : signBuffer nonce_engine 5 [] 7 0%nat
               = Returns (mkSignature (256 ^ 31) (2 ^ 248 + 7) 32) 3%nat)
    by (vm_compute; reflexivity).
  split; [exact nonce_engine_context_free|].
  split; [exact H1|]. split; [exact H2|].
  exact (signBuffer_context_free nonce_engine 3 5 [] 7 0%nat 3%nat 3%nat
           (mkSignature (256 ^ 31) (2 ^ 248 + 7) 32)
           (mkSignature (256 ^ 31) (2 ^ 248 + 7) 32)
           nonce_engine_context_free H1 H2).
Defined.

(** ** The retry loop of [signBuffer] *)

Lemma canonical_loop_done (E : Collaborators) (inner fuel : nat)
    (_hash : Buffer.t) (private_key : PrivateKey E) (sig : Signature)
    (w : World E) :
  isCanonical sig = true ->
  canonical_loop E inner fuel _hash private_key sig w = Returns sig w.
Proof.
  intros Hc. destruct fuel; cbn [canonical_loop]; rewrite Hc; reflexivity.
Qed.

Lemma canonical_loop_reaches (E : Collaborators) (inner : nat)
    (_hash : Buffer.t) (private_key : PrivateKey E) (w : World E)
    (k : nat) (sig : Signature) (w' : World E) :
  attempt E inner _hash private_key w k = Returns sig w' ->
  isCanonical sig = true ->
  (forall j : nat,
     (j < k)%nat ->
     exists (sj : Signature) (wj : World E),
       attempt E inner _hash private_key w j = Returns sj wj
       /\ isCanonical sj = false) ->
  forall (n j fuel : nat) (sj : Signature) (wj : World E),
    (j + n = k)%nat ->
    (n <= fuel)%nat ->
    attempt E inner _hash private_key w j = Returns sj wj ->
    canonical_loop E inner fuel _hash private_key sj wj = Returns sig w'.
Proof.
  intros Hk Hc Hbefore.
  induction n as [|n IH]; intros j fuel sj wj Hj Hfuel Hat.
  - replace j with k in Hat by lia. rewrite Hk in Hat.
    injection Hat as <- <-. apply canonical_loop_done. exact Hc.
  - destruct (Hbefore j ltac:(lia)) as (sj' & wj' & Hat' & Hnc).
    rewrite Hat in Hat'. injection Hat' as <- <-.
    destruct fuel as [|fuel]; [lia|].
    cbn [canonical_loop]. rewrite Hnc.
    assert (Hnext : attempt E inner _hash private_key w (S j)
                    = signBufferSha256 E inner (JsBuffer _hash) private_key wj)
      by (cbn [attempt]; rewrite Hat; reflexivity).
    rewrite <- Hnext.
    assert (Hret : exists (s1 : Signature) (w1 : World E),
               attempt E inner _hash private_key w (S j) = Returns s1 w1).
    { destruct (Nat.eq_dec (S j) k) as [Heq|Hne].
      - rewrite Heq. eauto.
      - destruct (Hbefore (S j) ltac:(lia)) as (s1 & w1 & H1 & _). eauto. }
    destruct Hret as (s1 & w1 & H1). rewrite H1. cbn [obind].
    apply (IH (S j)); [lia|lia|exact H1].
Qed.

(** X8. [signBuffer] returns the first canonical signature among its
    successive calls of [signBufferSha256]: when call [k] returns a
    canonical signature and the calls before it returned signatures that
    are not, a run with fuel [k] or more returns the signature of call
    [k], in the world that call left. *)
Theorem signBuffer_first_canonical (E : Collaborators) (fuel : nat)
    (buf : Buffer.t) (private_key : PrivateKey E) (w w' : World E)
    (k : nat) (sig : Signature) :
  attempt E fuel (sha256 E buf) private_key w k = Returns sig w' ->
  isCanonical sig = true ->
  (forall j : nat,
     (j < k)%nat ->
     exists (sj : Signature) (wj : World E),
       attempt E fuel (sha256 E buf) private_key w j = Returns sj wj
       /\ isCanonical sj = false) ->
  (k <= fuel)%nat ->
  signBuffer E fuel buf private_key w = Returns sig w'.
Proof.
  intros Hk Hc Hbefore Hfuel. unfold signBuffer.
  assert (H0 : exists (s0 : Signature) (w0 : World E),
             attempt E fuel (sha256 E buf) private_key w 0 = Returns s0 w0).
  { destruct k as [|k]; [eauto|].
    destruct (Hbefore 0%nat ltac:(lia)) as (s0 & w0 & H0 & _). eauto. }
  destruct H0 as (s0 & w0 & H0).
  pose proof H0 as Hfirst. cbn [attempt] in Hfirst. rewrite Hfirst.
  cbn [obind].
  apply (canonical_loop_reaches E fuel (sha256 E buf) private_key w k sig w'
           Hk Hc Hbefore k 0%nat fuel s0 w0); [lia|exact Hfuel|exact H0].
Qed.

Lemma signBuffer_first_canonical_witness :
  attempt bounded_engine 3 (sha256 bounded_engine []) 7 0%nat 1
  = Returns (mkSignature (2 ^ 248) (2 ^ 248 + 7) 32) 2%nat
  /\ isCanonical (mkSignature (2 ^ 248) (2 ^ 248 + 7) 32) = true
  /\ (attempt bounded_engine 3 (sha256 bounded_engine []) 7 0%nat 0
      = Returns (mkSignature (2 ^ 255) (2 ^ 248 + 7) 32) 1%nat
      /\ isCanonical (mkSignature (2 ^ 255) (2 ^ 248 + 7) 32) = false)
  /\ signBuffer bounded_engine 3 [] 7 0%nat
     = Returns (mkSignature (2 ^ 248) (2 ^ 248 + 7) 32) 2%nat.
Proof.
  assert (H1 : attempt bounded_engine 3 (sha256 bounded_engine []) 7 0%nat 1
               = Returns (mkSignature (2 ^ 248) (2 ^ 248 + 7) 32) 2%nat)
    by (vm_compute; reflexivity).
  assert (Hc : isCanonical (mkSignature (2 ^ 248) (2 ^ 248 + 7) 32) = true)
    by (vm_compute; reflexivity).
  assert (H0 : attempt bounded_engine 3 (sha256 bounded_engine []) 7 0%nat 0
               = Returns (mkSignature (2 ^ 255) (2 ^ 248 + 7) 32) 1%nat)
    by (vm_compute; reflexivity).
  assert (Hn : isCanonical (mkSignature (2 ^ 255) (2 ^ 248 + 7) 32) = false)
    by (vm_compute; reflexivity).
  split; [exact H1|]. split; [exact Hc|]. split; [split; assumption|].
  apply (signBuffer_first_canonical bounded_engine 3 [] 7 0%nat 2%nat 1
           (mkSignature (2 ^ 248) (2 ^ 248 + 7) 32) H1 Hc); [|lia].
  intros j Hj. assert (j = 0)%nat as -> by lia.
  exists (mkSignature (2 ^ 255) (2 ^ 248 + 7) 32), 1%nat.
  split; assumption.
Defined.

(** ** The hex layer *)

Module HexFacts.

Lemma decode_encode_byte (b : byte) (rest : string) (bytes : Buffer.t) :
  Hex.decode rest = Some bytes ->
  Hex.decode (String (Hex.digit (byte_val b / 16))
                (String (Hex.digit (byte_val b mod 16)) rest))
  = Some (b :: bytes).
Proof.
  intros Hrest. cbn [Hex.decode]. rewrite Hrest.
  destruct b; reflexivity.
Qed.

Lemma decode_encode (buf : Buffer.t) : Hex.decode (Hex.encode buf) = Some buf.
Proof.
  induction buf as [|b rest IH]; [reflexivity|].
  cbn [Hex.encode]. apply decode_encode_byte. exact IH.
Qed.

Lemma encode_length (buf : Buffer.t) :
  String.length (Hex.encode buf) = (2 * List.length buf)%nat.
Proof.
  induction buf as [|b rest IH]; [reflexivity|].
  cbn [Hex.encode String.length List.length]. rewrite IH. lia.
Qed.





Lemma decode_length : forall (hex : string) (buf : Buffer.t),
  Hex.decode hex = Some buf ->
  String.length hex = (2 * List.length buf)%nat.
Proof.
  fix IH 1. intros hex buf.
  destruct hex as [|c1 [|c2 rest]]; cbn [Hex.decode].
  - intros [= <-]. reflexivity.
  - discriminate.
  - destruct (Hex.value c1) as [hi|]; [|discriminate].
    destruct (Hex.value c2) as [lo|]; [|discriminate].
    destruct (Hex.decode rest) as [bytes|] eqn:Hrest; [|discriminate].
    intros Heq.
    replace buf with (byte_of_Z (16 * hi + lo) :: bytes) by congruence.
    cbn [String.length List.length].
    rewrite (IH rest bytes Hrest). lia.
Qed.


End HexFacts.


Lemma Buffer_from_hex_decoded (malformed : string -> result Buffer.t)
    (hex : string) (buf : Buffer.t) :
  Hex.decode hex = Some buf -> Buffer_from_hex malformed hex = Ok buf.
Proof. intros Hd. unfold Buffer_from_hex. rewrite Hd. reflexivity. Qed.

(** X9. [toHex] then [fromHex] gives the signature back: for a header
    in [27, 34] and [r], [s] in [0, 2^256), [toHex] returns 130
    characters and [fromHex] decodes them to the same signature. *)
Theorem toHex_fromHex_roundtrip (malformed : string -> result Buffer.t)
    (sig : Signature) :
  27 <= i sig <= 34 ->
  0 <= r sig < 2 ^ 256 ->
  0 <= s sig < 2 ^ 256 ->
  exists hex : string,
    toHex sig = Ok hex
    /\ String.length hex = 130%nat
    /\ fromHex malformed hex = Ok sig.
Proof.
  intros Hi Hr Hs.
  destruct (toBuffer_then_fromBuffer sig Hi Hr Hs) as [Henc Hdec].
  unfold toHex, fromHex. rewrite Henc. cbn [rbind].
  eexists. split; [reflexivity|]. split.
  - rewrite HexFacts.encode_length. cbn [List.length].
    rewrite length_app, !BigIntegerFacts.be_bytes_length. reflexivity.
  - rewrite (Buffer_from_hex_decoded malformed _ _ (HexFacts.decode_encode _)).
    cbn [rbind]. exact Hdec.
Qed.

Lemma toHex_fromHex_roundtrip_witness :
  27 <= i sample_signature <= 34
  /\ 0 <= r sample_signature < 2 ^ 256
  /\ 0 <= s sample_signature < 2 ^ 256
  /\ exists hex : string,
       toHex sample_signature = Ok hex
       /\ String.length hex = 130%nat
       /\ fromHex no_bytes hex = Ok sample_signature.
Proof.
  assert (Hi : 27 <= i sample_signature <= 34) by (cbn; lia).
  assert (Hr : 0 <= r sample_signature < 2 ^ 256) by (cbn; lia).
  assert (Hs : 0 <= s sample_signature < 2 ^ 256) by (cbn; lia).
  split; [exact Hi|]. split; [exact Hr|]. split; [exact Hs|].
  exact (toHex_fromHex_roundtrip no_bytes sample_signature Hi Hr Hs).
Defined.



(** X11. [fromHex] fails the length assertion on every string of hex
    digits that does not have 130 of them, and the header assertion on
    every string of 130 hex digits whose first byte is outside
    [27, 34]. *)
Theorem fromHex_errors (malformed : string -> result Buffer.t)
    (hex : string) (buf : Buffer.t) :
  Hex.decode hex = Some buf ->
  (String.length hex <> 130%nat ->
   fromHex malformed hex = Throw (AssertionError "Invalid signature length"))
  /\ (forall h : Z,
        String.length hex = 130%nat ->
        Buffer.get buf 0 = Some h ->
        ~ 27 <= h <= 34 ->
        fromHex malformed hex
        = Throw (AssertionError "Invalid signature parameter")).
Proof.
  intros Hd. unfold fromHex.
  rewrite (Buffer_from_hex_decoded malformed hex buf Hd). cbn [rbind].
  pose proof (HexFacts.decode_length hex buf Hd) as Hlen.
  split.
  - intros Hne. unfold fromBuffer, assert_equal.
    destruct (Z.eqb_spec (Buffer.length buf) 65) as [H65|H65];
      [|reflexivity].
    unfold Buffer.length in H65. lia.
  - intros h H130 Hget Hh.
    destruct (BufferFacts.get_0_inv buf h Hget) as (hd & rest & -> & ->).
    unfold fromBuffer, assert_equal.
    replace (Buffer.length (hd :: rest)) with 65
      by (unfold Buffer.length; lia).
    cbn [Z.eqb Pos.eqb rbind Buffer.readUInt8 nth_error].
    destruct (byte_val hd - 27 =? Z.land (byte_val hd - 27) 7) eqn:Htest;
      [|reflexivity].
    exfalso. apply Hh. apply header_test. exact Htest.
Qed.

Lemma fromHex_errors_witness :
  Hex.decode "1fab" = Some [x1f; xab]
  /\ fromHex no_bytes "1fab" = Throw (AssertionError "Invalid signature length")
  /\ fromHex no_bytes (Hex.encode (x1a :: Buffer.alloc 64))
     = Throw (AssertionError "Invalid signature parameter").
Proof.
  assert (Hd : Hex.decode "1fab" = Some [x1f; xab]) by reflexivity.
  split; [exact Hd|]. split.
  - apply (proj1 (fromHex_errors no_bytes "1fab" [x1f; xab] Hd)).
    cbn. lia.
  - apply (proj2 (fromHex_errors no_bytes
                    (Hex.encode (x1a :: Buffer.alloc 64))
                    (x1a :: Buffer.alloc 64)
                    (HexFacts.decode_encode _)) 26);
      [reflexivity|reflexivity|lia].
Defined.



(** * The call-data serializer *)

Module TxSerializerFacts.
Import TxSerializer.

Lemma prefix_brackets (hay : string) :
  String.prefix "[]" hay = true
  <-> exists post : string, hay = String.append "[]" post.
Proof.
  destruct hay as [|c1 [|c2 rest]]; cbn [String.prefix].
  - split; [discriminate|]. intros (post & Hp). cbn in Hp. discriminate.
  - destruct (ascii_dec "[" c1); split; try discriminate;
      intros (post & Hp); cbn in Hp; discriminate.
  - destruct (ascii_dec "[" c1) as [<-|Hn1].
    + destruct (ascii_dec "]" c2) as [<-|Hn2].
      * split; [intros _; exists rest; reflexivity|].
        intros _. destruct rest; reflexivity.
      * split; [discriminate|]. intros (post & Hp). cbn in Hp. congruence.
    + split; [discriminate|]. intros (post & Hp). cbn in Hp. congruence.
Qed.

Lemma indexOf_from_found (hay : string) (pos : Z) :
  0 <= pos ->
  (indexOf_from "[]" hay pos <> -1
   <-> exists pre post : string,
         hay = String.append pre (String.append "[]" post)).
Proof.
  revert pos. induction hay as [|c rest IH]; intros pos Hpos.
  - cbn. split; [congruence|].
    intros (pre & post & Hp). destruct pre; discriminate.
  - cbn [indexOf_from].
    destruct (String.prefix "[]" (String c rest)) eqn:Hpre.
    + split; [|lia]. intros _.
      apply prefix_brackets in Hpre. destruct Hpre as (post & Hp).
      exists EmptyString, post. exact Hp.
    + rewrite (IH (pos + 1)) by lia. split.
      * intros (pre & post & ->). exists (String c pre), post. reflexivity.
      * intros (pre & post & Hp). destruct pre as [|c' pre'].
        -- exfalso. cbn [String.append] in Hp.
           assert (Ht : String.prefix "[]" (String c rest) = true)
             by (apply prefix_brackets; exists post; exact Hp).
           congruence.
        -- injection Hp as _ Hrest. exists pre', post. exact Hrest.
Qed.

Lemma before_bracket_app (base rest : string) :
  bracket_free base = true ->
  before_bracket (String.append base (String "["%char rest)) = base.
Proof.
  induction base as [|c base IH]; intros Hfree; [reflexivity|].
  cbn [bracket_free] in Hfree. apply andb_true_iff in Hfree.
  destruct Hfree as [Hc Hrest]. cbn [String.append before_bracket].
  destruct (Ascii.eqb c "[") eqn:Heq; [discriminate|].
  rewrite IH by exact Hrest. reflexivity.
Qed.

Lemma bracket_free_no_array (base : string) :
  bracket_free base = true -> isArrayType base = false.
Proof.
  intros Hfree. unfold isArrayType, indexOf.
  destruct (Z.eqb_spec (indexOf_from "[]" base 0) (-1)) as [_|Hne];
    [reflexivity|].
  exfalso. apply indexOf_from_found in Hne; [|lia].
  destruct Hne as (pre & post & ->). clear - Hfree.
  induction pre as [|c pre IH]; cbn in Hfree; [discriminate|].
  apply andb_true_iff in Hfree. apply IH. apply Hfree.
Qed.

Lemma isArrayType_iff (type : string) :
  isArrayType type = true
  <-> exists pre post : string,
        type = String.append pre (String.append "[]" post).
Proof.
  unfold isArrayType, indexOf.
  rewrite <- (indexOf_from_found type 0) by lia.
  rewrite negb_true_iff, Z.eqb_neq. reflexivity.
Qed.

End TxSerializerFacts.

(** X14. [isArrayType] is true exactly for the strings that contain
    ["[]"]. *)
Theorem isArrayType_spec (type : string) :
  TxSerializer.isArrayType type = true
  <-> exists pre post : string,
        type = String.append pre (String.append "[]" post).
Proof.
  unfold TxSerializer.isArrayType, TxSerializer.indexOf.
  rewrite <- (TxSerializerFacts.indexOf_from_found type 0) by lia.
  rewrite negb_true_iff, Z.eqb_neq. reflexivity.
Qed.

(** X15. The name a field type is looked up under. For a type made of
    a name without ["["] followed by ["[]"] and anything more, the field
    is an array and is looked up under that name alone; a type without
    ["["] is no array and is looked up under itself. *)
Theorem lookup_name_spec (base rest fname : string) :
  TxSerializer.bracket_free base = true ->
  (TxSerializer.isArrayType (String.append base (String.append "[]" rest))
   = true
   /\ TxSerializer.lookup_name
        {| TxSerializer.f_name := fname;
           TxSerializer.f_type :=
             String.append base (String.append "[]" rest) |}
      = base)
  /\ (TxSerializer.isArrayType base = false
      /\ TxSerializer.lookup_name
           {| TxSerializer.f_name := fname; TxSerializer.f_type := base |}
         = base).
Proof.
  intros Hfree.
  assert (Harr : TxSerializer.isArrayType
                   (String.append base (String.append "[]" rest)) = true)
    by (apply TxSerializerFacts.isArrayType_iff; eauto).
  pose proof (TxSerializerFacts.bracket_free_no_array base Hfree) as Hno.
  unfold TxSerializer.lookup_name. cbn [TxSerializer.f_type].
  rewrite Harr, Hno. repeat split.
  apply (TxSerializerFacts.before_bracket_app base (String "]"%char rest)).
  exact Hfree.
Qed.

Lemma lookup_name_spec_witness :
  TxSerializer.bracket_free "asset" = true
  /\ (TxSerializer.isArrayType "asset[][3]" = true
      /\ TxSerializer.lookup_name
           {| TxSerializer.f_name := "amounts";
              TxSerializer.f_type := "asset[][3]" |}
         = "asset"%string)
  /\ (TxSerializer.isArrayType "asset" = false
      /\ TxSerializer.lookup_name
           {| TxSerializer.f_name := "amounts";
              TxSerializer.f_type := "asset" |}
         = "asset"%string).
Proof.
  assert (H : TxSerializer.bracket_free "asset" = true) by reflexivity.
  split; [exact H|].
  exact (lookup_name_spec "asset" "[3]" "amounts" H).
Defined.

Module SerializeFacts.
Import TxSerializer.

Section WithSerializers.

Variable T : Serializers.
Variable abi : Abi.

Lemma find_none_iff {A : Type} (f : A -> bool) (l : list A) :
  find f l = None <-> forall x : A, In x l -> f x = false.
Proof.
  split; [apply find_none|].
  induction l as [|a l IH]; intros Hall; [reflexivity|].
  cbn [find]. rewrite (Hall a (or_introl eq_refl)).
  apply IH. intros x Hx. apply Hall. right. exact Hx.
Qed.

Lemma serializeFields_app (params : string -> JsValue T) (b : ByteBuffer T)
    (fs1 fs2 : list Field) :
  serializeFields T abi params b (fs1 ++ fs2)
  = (b1 <- serializeFields T abi params b fs1 ;;
     serializeFields T abi params b1 fs2).
Proof.
  revert b. induction fs1 as [|f fs1 IH]; intros b; [reflexivity|].
  cbn [app serializeFields].
  destruct (serializeField T abi params b f) as [b'|e]; cbn [rbind];
    [apply IH|reflexivity].
Qed.

Lemma serializeField_unresolved (params : string -> JsValue T)
    (b : ByteBuffer T) (f : Field) :
  resolvable T abi f = false -> serializeField T abi params b f = Ok b.
Proof.
  unfold resolvable, serializeField.
  destruct (resolve T abi (lookup_name f)); [discriminate|reflexivity].
Qed.

Lemma serializeFields_filter (params : string -> JsValue T) (b : ByteBuffer T)
    (fields : list Field) :
  serializeFields T abi params b fields
  = serializeFields T abi params b (filter (resolvable T abi) fields).
Proof.
  revert b. induction fields as [|f fields IH]; intros b; [reflexivity|].
  cbn [filter serializeFields].
  destruct (resolvable T abi f) eqn:Hres.
  - cbn [serializeFields].
    destruct (serializeField T abi params b f) as [b'|e]; cbn [rbind];
      [apply IH|reflexivity].
  - rewrite (serializeField_unresolved params b f Hres). cbn [rbind].
    apply IH.
Qed.

Lemma serializeFields_params (params1 params2 : string -> JsValue T)
    (b : ByteBuffer T) (fields : list Field) :
  (forall f : Field,
     In f fields -> resolvable T abi f = true ->
     params1 (f_name f) = params2 (f_name f)) ->
  serializeFields T abi params1 b fields
  = serializeFields T abi params2 b fields.
Proof.
  revert b. induction fields as [|f fields IH]; intros b Hagree;
    [reflexivity|].
  cbn [serializeFields].
  assert (Hf : serializeField T abi params1 b f
               = serializeField T abi params2 b f).
  { unfold serializeField.
    pose proof (Hagree f (or_introl eq_refl)) as Hv. unfold resolvable in Hv.
    destruct (resolve T abi (lookup_name f)) as [ty|]; [|reflexivity].
    rewrite (Hv eq_refl). reflexivity. }
  rewrite Hf.
  destruct (serializeField T abi params2 b f) as [b'|e]; cbn [rbind];
    [|reflexivity].
  apply IH. intros g Hg. apply Hagree. right. exact Hg.
Qed.

End WithSerializers.

End SerializeFacts.

(** X16. [serializeCallData] ends in the [TypeError] of reading
    [fields] of [undefined] exactly when the ABI has no struct named
    like the action, whatever the parameters are. *)
Theorem serializeCallData_unknown_action (T : TxSerializer.Serializers)
    (action : string) (params : string -> TxSerializer.JsValue T)
    (abi : TxSerializer.Abi) :
  TxSerializer.serializeCallData T action params abi = TxSerializer.TypeError
  <-> forall st : TxSerializer.Struct,
        In st (TxSerializer.structs abi) -> TxSerializer.s_name st <> action.
Proof.
  unfold TxSerializer.serializeCallData.
  destruct (find (fun st => String.eqb (TxSerializer.s_name st) action)
              (TxSerializer.structs abi)) as [struct|] eqn:Hfind.
  - split.
    + destruct (TxSerializer.serializeFields T abi params _ _); discriminate.
    + intros Hnone. exfalso. apply find_some in Hfind.
      destruct Hfind as [Hin Heq]. apply String.eqb_eq in Heq.
      exact (Hnone struct Hin Heq).
  - split; [|reflexivity]. intros _ st Hin.
    apply (proj1 (SerializeFacts.find_none_iff _ _) Hfind) in Hin.
    apply String.eqb_neq. exact Hin.
Qed.

(** X17. Fields whose type no table knows are passed over without an
    error: the result is that of the struct with those fields left out,
    and a struct with only such fields gives the bytes of the fresh
    buffer. *)
Theorem unresolved_fields_skipped (T : TxSerializer.Serializers)
    (action : string) (params : string -> TxSerializer.JsValue T)
    (abi : TxSerializer.Abi) (struct : TxSerializer.Struct) :
  find (fun st => String.eqb (TxSerializer.s_name st) action)
    (TxSerializer.structs abi) = Some struct ->
  TxSerializer.serializeCallData T action params abi
  = match TxSerializer.serializeFields T abi params
            (TxSerializer.new_ByteBuffer T)
            (filter (TxSerializer.resolvable T abi)
               (TxSerializer.s_fields struct)) with
    | Ok b => TxSerializer.Bytes (TxSerializer.ByteBuffer_bytes T b)
    | Throw e => TxSerializer.Thrown e
    end
  /\ ((forall f : TxSerializer.Field,
         In f (TxSerializer.s_fields struct) ->
         TxSerializer.resolvable T abi f = false) ->
      TxSerializer.serializeCallData T action params abi
      = TxSerializer.Bytes
          (TxSerializer.ByteBuffer_bytes T (TxSerializer.new_ByteBuffer T))).
Proof.
  intros Hfind. unfold TxSerializer.serializeCallData. rewrite Hfind.
  rewrite SerializeFacts.serializeFields_filter. split; [reflexivity|].
  intros Hall.
  replace (filter (TxSerializer.resolvable T abi)
             (TxSerializer.s_fields struct)) with (@nil TxSerializer.Field);
    [reflexivity|].
  symmetry. induction (TxSerializer.s_fields struct) as [|f fs IH];
    [reflexivity|].
  cbn [filter]. rewrite (Hall f (or_introl eq_refl)).
  apply IH. intros g Hg. apply Hall. right. exact Hg.
Qed.

Lemma unresolved_fields_skipped_witness :
  TxSerializer.serializeCallData TxSerializer.toy "hi"
    TxSerializer.toy_params TxSerializer.toy_abi
  = TxSerializer.Bytes [x07; x02; x01; x02]
  /\ TxSerializer.serializeCallData TxSerializer.toy "hi"
       TxSerializer.toy_params TxSerializer.toy_abi
     = match TxSerializer.serializeFields TxSerializer.toy
               TxSerializer.toy_abi TxSerializer.toy_params []
               [ {| TxSerializer.f_name := "a";
                    TxSerializer.f_type := "uint8" |};
                 {| TxSerializer.f_name := "b";
                    TxSerializer.f_type := "blob[]" |} ] with
       | Ok b => TxSerializer.Bytes b
       | Throw e => TxSerializer.Thrown e
       end.
Proof.
  split; [vm_compute; reflexivity|].
  exact (proj1 (unresolved_fields_skipped TxSerializer.toy "hi"
                  TxSerializer.toy_params TxSerializer.toy_abi
                  (List.hd {| TxSerializer.s_name := "";
                              TxSerializer.s_fields := [] |}
                     (TxSerializer.structs TxSerializer.toy_abi))
                  eq_refl)).
Defined.

(** X18. Only the parameters named by fields with a known type are
    read: two parameter objects that agree on those give the same
    result. *)
Theorem serializeCallData_params (T : TxSerializer.Serializers)
    (action : string) (params1 params2 : string -> TxSerializer.JsValue T)
    (abi : TxSerializer.Abi) :
  (forall (st : TxSerializer.Struct) (f : TxSerializer.Field),
     In st (TxSerializer.structs abi) ->
     TxSerializer.s_name st = action ->
     In f (TxSerializer.s_fields st) ->
     TxSerializer.resolvable T abi f = true ->
     params1 (TxSerializer.f_name f) = params2 (TxSerializer.f_name f)) ->
  TxSerializer.serializeCallData T action params1 abi
  = TxSerializer.serializeCallData T action params2 abi.
Proof.
  intros Hagree. unfold TxSerializer.serializeCallData.
  destruct (find (fun st => String.eqb (TxSerializer.s_name st) action)
              (TxSerializer.structs abi)) as [struct|] eqn:Hfind;
    [|reflexivity].
  apply find_some in Hfind. destruct Hfind as [Hin Heq].
  apply String.eqb_eq in Heq.
  rewrite (SerializeFacts.serializeFields_params T abi params1 params2);
    [reflexivity|].
  intros f Hf Hres. exact (Hagree struct f Hin Heq Hf Hres).
Qed.

Lemma serializeCallData_params_witness :
  TxSerializer.serializeCallData TxSerializer.toy "hi"
    TxSerializer.toy_params TxSerializer.toy_abi
  = TxSerializer.serializeCallData TxSerializer.toy "hi"
      (fun name => if String.eqb name "c" then [xff]
                   else TxSerializer.toy_params name)
      TxSerializer.toy_abi.
Proof.
  apply (serializeCallData_params TxSerializer.toy "hi").
  intros st f Hst _ Hf Hres.
  destruct Hst as [<-|[]].
  destruct Hf as [<-|[<-|[<-|[]]]]; try reflexivity.
  vm_compute in Hres. discriminate.
Defined.

(** X19. The fields are written in order, each to the buffer the one
    before left, and a throw ends the call: when the first fields of a
    struct throw, that is the result whatever follows; when they give a
    buffer, the result is that of the remaining fields written to it. *)
Theorem serializeFields_in_order (T : TxSerializer.Serializers)
    (abi : TxSerializer.Abi) (params : string -> TxSerializer.JsValue T)
    (b : TxSerializer.ByteBuffer T) (fs1 fs2 : list TxSerializer.Field) :
  (forall e : exn,
     TxSerializer.serializeFields T abi params b fs1 = Throw e ->
     TxSerializer.serializeFields T abi params b (fs1 ++ fs2) = Throw e)
  /\ (forall b1 : TxSerializer.ByteBuffer T,
        TxSerializer.serializeFields T abi params b fs1 = Ok b1 ->
        TxSerializer.serializeFields T abi params b (fs1 ++ fs2)
        = TxSerializer.serializeFields T abi params b1 fs2).
Proof.
  rewrite SerializeFacts.serializeFields_app.
  split; intros x Hx; rewrite Hx; reflexivity.
Qed.

Lemma serializeFields_in_order_witness :
  TxSerializer.serializeFields TxSerializer.toy TxSerializer.toy_abi
    TxSerializer.toy_params []
    ([ {| TxSerializer.f_name := "zz"; TxSerializer.f_type := "uint8" |} ]
     ++ [ {| TxSerializer.f_name := "a"; TxSerializer.f_type := "uint8" |} ])
  = Throw (Error "missing value")
  /\ TxSerializer.serializeFields TxSerializer.toy TxSerializer.toy_abi
       TxSerializer.toy_params []
       ([ {| TxSerializer.f_name := "a"; TxSerializer.f_type := "uint8" |} ]
        ++ [ {| TxSerializer.f_name := "b"; TxSerializer.f_type := "bytes" |} ])
     = TxSerializer.serializeFields TxSerializer.toy TxSerializer.toy_abi
         TxSerializer.toy_params [x07]
         [ {| TxSerializer.f_name := "b"; TxSerializer.f_type := "bytes" |} ].
Proof.
  split.
  - apply (proj1 (serializeFields_in_order TxSerializer.toy
                    TxSerializer.toy_abi TxSerializer.toy_params [] _ _)).
    reflexivity.
  - apply (proj2 (serializeFields_in_order TxSerializer.toy
                    TxSerializer.toy_abi TxSerializer.toy_params [] _ _)).
    reflexivity.
Defined.

(** ** Recovery index *)

